(** * agent-top: event correlation, timeline building and Gantt compression

    A shallow embedding of the pure core of [src/agent_top/__init__.py]:
    [_match_tools_to_agents] (the Correlator), the timeline part of
    [_draw_viz_tree] (the Timeline Builder), [_build_gantt_segments] and
    [_time_to_col] (the Gantt Compressor) and the Space/Enter branch of the
    key loop in [main] (the navigation state).

    Conventions.
    - A Python [str] is a [string] holding its UTF-8 bytes; the order of
      [String.compare] (bytewise, lexicographic) is then the order of
      Python's [<] on [str] (code point order).
    - A [dict] row is a record.  A column that can be missing or NULL and
      is only ever tested for truthiness or compared with a non-empty
      string is kept as a [string], the empty string standing for the
      missing value; [stopped_at], which the code tests with [is None], is
      an [option].
    - [datetime] values are microsecond counts in [Z]; [total_seconds()]
      of a [timedelta] is kept as that exact count (so the constant [6] of
      the pairing score is [6_000_000] and [1.0] second is [1_000_000]).
    - [_time_to_col] is modelled twice: in [Gantt64] as the code computes
      it, in binary64 floating point ([F64]), and in [Gantt] over exact
      rational seconds, the value that the floating-point result
      approximates. *)

From Stdlib Require Import ZArith QArith Qround Qabs Qpower String Ascii DecimalString List Sorted Permutation Lia Lqa.
From stdpp Require Import base option list sorting gmap strings.

Set Warnings "-clear-no-such-hyp".

Close Scope Q_scope.
Open Scope string_scope.
Open Scope list_scope.
Open Scope Z_scope.
Open Scope nat_scope.
Open Scope stdpp_scope.

(** ** Python string operations *)

Module PyStr.

(** [a <= b] on [str]. *)
Definition le (a b : string) : Prop := String.leb a b = true.

(** [a < b] on [str]. *)
Definition lt (a b : string) : Prop := String.ltb a b = true.

(** [not s]: a string is falsy exactly when it is empty. *)
Definition falsy (s : string) : bool :=
  match s with EmptyString => true | String _ _ => false end.

(** [needle in hay]. *)
Fixpoint contains (needle hay : string) : bool :=
  String.prefix needle hay ||
  match hay with
  | EmptyString => false
  | String _ hay' => contains needle hay'
  end.

(** [s.replace("Z", "+00:00")]. *)
Fixpoint replace_Z (s : string) : string :=
  match s with
  | EmptyString => EmptyString
  | String c s' =>
      if Ascii.eqb c "Z"%char then "+00:00" +:+ replace_Z s'
      else String c (replace_Z s')
  end.

(** [str(n)] for a natural number. *)
Definition of_nat (n : nat) : string :=
  NilEmpty.string_of_uint (Nat.to_uint n).

End PyStr.

Infix "≤ₛ" := PyStr.le (at level 70).
Infix "<ₛ" := PyStr.lt (at level 70).

(** ** A stable sort by a string key: [sorted(l, key=...)] and
    [l.sort(key=...)].  An element is put in front of the elements of an
    equal key that follow it in the input, so equal keys keep their input
    order, as Python's sort guarantees. *)

Section StableSort.
Context {A : Type} (key : A → string).

Fixpoint insert_by (x : A) (l : list A) : list A :=
  match l with
  | [] => [x]
  | y :: l' =>
      if String.leb (key x) (key y) then x :: l else y :: insert_by x l'
  end.

Definition sorted_by (l : list A) : list A := foldr insert_by [] l.

Definition key_le (x y : A) : Prop := key x ≤ₛ key y.
End StableSort.

(** ** Data model *)

(** [ev["kind"]] of the dicts that [_draw_viz_tree] builds from the prompt
    and tool rows of a session. *)
Inductive Kind := KPrompt | KTool.

(** One dict of the list [timeline] built at the start of
    [_draw_viz_tree]: [ts], [kind], [text], and for a tool [_tool_name]
    and [_cwd] (a prompt dict has neither key: [None] and [""]).  The
    payload keys that no control flow reads ([_raw_input],
    [_raw_response], [_duration_ms], [_is_error], [_error_message]) are
    left out. *)
Record Event := mkEvent {
  ev_ts : string;
  ev_kind : Kind;
  ev_text : string;
  ev_tool_name : option string;
  ev_cwd : string
}.

(** A row of the [agent] table. *)
Record Agent := mkAgent {
  agent_id : string;
  agent_type : string;
  session_id : string;
  cwd : string;
  started_at : string;
  stopped_at : option string
}.

Global Instance Kind_eq_dec : EqDecision Kind.
Proof. solve_decision. Defined.
Global Instance Event_eq_dec : EqDecision Event.
Proof. solve_decision. Defined.
Global Instance Agent_eq_dec : EqDecision Agent.
Proof. solve_decision. Defined.

(** [t.get("_tool_name") == "Task"] *)
Definition is_task (t : Event) : Prop := ev_tool_name t = Some "Task".

Global Instance is_task_dec t : Decision (is_task t).
Proof. unfold is_task. apply _. Defined.

(** A parsed [datetime]: a count of microseconds, and whether the value
    carries a time zone.  For an aware value the count is that of its UTC
    instant, for a naive value that of its reading, which is its instant
    once [replace(tzinfo=timezone.utc)] makes it aware.  Python refuses
    to subtract an aware and a naive [datetime]. *)
Record datetime := mkDatetime { micros : Z; aware : bool }.

(** The library functions the code calls and this development does not
    look into.  [fromisoformat] is [datetime.fromisoformat],
    [strptime_seconds s] is [datetime.strptime(s, "%Y-%m-%d %H:%M:%S")]
    (its results are naive), [str_lower] is [str.lower].  [None] stands
    for a raised exception, which every caller catches. *)
Class PyRuntime := {
  fromisoformat : string → option datetime;
  strptime_seconds : string → option datetime;
  str_lower : string → string
}.

(** ** The Correlator: [_match_tools_to_agents] *)

Module Correlator.

(** The three values the function returns. *)
Record Result := mkResult {
  agent_tools : gmap string (list Event);
  agent_labels : gmap string string;
  unmatched : list Event
}.

(** The comparison of two score tuples [(delta, -type_bonus)]. *)
Definition score_lt (s1 s2 : Z * Z) : bool :=
  (s1.1 <? s2.1)%Z || ((s1.1 =? s2.1)%Z && (s1.2 <? s2.2)%Z).

(** [best_score = (6, 0)], in microseconds. *)
Definition initial_score : Z * Z := (6000000%Z, 0%Z).

(** The membership test of the second loop:
    [a_start] is not empty, [t_ts >= a_start] and
    [(a_stop is None or t_ts <= a_stop)]. *)
Definition in_window (t : Event) (a : Agent) : bool :=
  negb (PyStr.falsy (started_at a))
  && String.leb (started_at a) (ev_ts t)
  && match stopped_at a with
     | None => true
     | Some a_stop => String.leb (ev_ts t) a_stop
     end.

(** [max(candidates, key=lambda a: a.get("started_at", ""))]: the first
    of the agents whose key is largest. *)
Fixpoint max_started (best : Agent) (l : list Agent) : Agent :=
  match l with
  | [] => best
  | a :: l' =>
      max_started (if String.ltb (started_at best) (started_at a) then a else best) l'
  end.

(** Where the second loop puts one tool event. *)
Inductive Bucket := ToAgent (aid : string) | ToUnmatched.

Definition bucket_of (session_agents : list Agent) (t : Event) : Bucket :=
  let candidates := filter (λ a, in_window t a = true) session_agents in
  match candidates with
  | [] => ToUnmatched
  | [a] => ToAgent (agent_id a)
  | a :: rest =>
      let cwd_match :=
        filter (λ a, PyStr.falsy (cwd a) = false ∧ cwd a = ev_cwd t) candidates in
      match cwd_match with
      | [m] => ToAgent (agent_id m)
      | _ => ToAgent (agent_id (max_started a rest))
      end
  end.

(** [agent_tools[aid].append(t)]; [None] is Python's [KeyError]. *)
Definition append_tool (aid : string) (t : Event)
    (m : gmap string (list Event)) : option (gmap string (list Event)) :=
  l ← m !! aid; Some (<[aid := l ++ [t]]> m).

(** One round of [for t in tools] of the second loop, on the pair
    [(agent_tools, unmatched)]. *)
Definition assign_step (session_agents : list Agent)
    (st : option (gmap string (list Event) * list Event)) (t : Event)
    : option (gmap string (list Event) * list Event) :=
  '(at_, um) ← st;
  if decide (is_task t) then Some (at_, um)
  else match bucket_of session_agents t with
       | ToAgent aid => at_' ← append_tool aid t at_; Some (at_', um)
       | ToUnmatched => Some (at_, um ++ [t])
       end.

(** [{a["agent_id"]: [] for a in session_agents}] *)
Definition empty_buckets (session_agents : list Agent) : gmap string (list Event) :=
  list_to_map ((λ a, (agent_id a, @nil Event)) <$> session_agents).

Section Pairing.
Context `{PyRuntime}.

(** The two parses and the subtraction inside [try]: the result is
    [abs((t2 - t1).total_seconds())] in microseconds, or [None] when
    any of the three raises. *)
Definition task_time (s : string) : option datetime :=
  if PyStr.contains "T" s then fromisoformat (PyStr.replace_Z s)
  else strptime_seconds s.

Definition delta_of (tt_ts a_start : string) : option Z :=
  t1 ← task_time tt_ts;
  t2 ← task_time a_start;
  if Bool.eqb (aware t1) (aware t2)
  then Some (Z.abs (micros t2 - micros t1))
  else None.

(** [1 if a_type and a_type.lower() in tt.get("text", "").lower() else 0] *)
Definition type_bonus (a : Agent) (tk : Event) : Z :=
  if negb (PyStr.falsy (agent_type a))
     && PyStr.contains (str_lower (agent_type a)) (str_lower (ev_text tk))
  then 1%Z else 0%Z.

(** One round of [for i, tt in enumerate(task_pool)], on the pair
    [(best_task, best_score)]. *)
Definition consider (a : Agent) (used_tasks : gset nat)
    (st : option (nat * Event) * (Z * Z)) (it : nat * Event)
    : option (nat * Event) * (Z * Z) :=
  let '(best_task, best_score) := st in
  let '(i, tk) := it in
  if decide (i ∈ used_tasks) then st
  else if PyStr.falsy (ev_ts tk) || PyStr.falsy (started_at a)
          || String.ltb (started_at a) (ev_ts tk) then st
  else match delta_of (ev_ts tk) (started_at a) with
       | None => st
       | Some delta =>
           if (best_score.1 <=? delta)%Z && bool_decide (is_Some best_task)
           then st
           else
             let score := (delta, (- type_bonus a tk)%Z) in
             if score_lt score best_score then (Some (i, tk), score) else st
       end.

(** The inner loop for one agent: the chosen [(index, task)], if any. *)
Definition best_task_for (task_pool : list Event) (a : Agent)
    (used_tasks : gset nat) : option (nat * Event) :=
  (foldl (consider a used_tasks) (None, initial_score) (imap pair task_pool)).1.

(** One round of [for agent in sorted_agents], on the pair
    [(used_tasks, agent_labels)]. *)
Definition pair_step (task_pool : list Event)
    (st : gset nat * gmap string string) (a : Agent)
    : gset nat * gmap string string :=
  match best_task_for task_pool a st.1 with
  | Some (idx, tk) => ({[idx]} ∪ st.1, <[agent_id a := ev_text tk]> st.2)
  | None => st
  end.

Definition pair_tasks (task_pool : list Event) (sorted_agents : list Agent)
    : gset nat * gmap string string :=
  foldl (pair_step task_pool) (∅, ∅) sorted_agents.

(** The same loop, recording who claimed what: the triples
    [(agent, index, task)] in the order the claims are made.  The code
    keeps only their projections [used_tasks] and [agent_labels]. *)
Fixpoint claims (task_pool : list Event) (used_tasks : gset nat)
    (sorted_agents : list Agent) : list (Agent * nat * Event) :=
  match sorted_agents with
  | [] => []
  | a :: rest =>
      match best_task_for task_pool a used_tasks with
      | Some (idx, tk) =>
          (a, idx, tk) :: claims task_pool ({[idx]} ∪ used_tasks) rest
      | None => claims task_pool used_tasks rest
      end
  end.

(** The whole function. [None] would be an uncaught [KeyError]. *)
Definition _match_tools_to_agents (tools : list Event) (agents : list Agent)
    (target_sid : string) : option Result :=
  let tools := filter (λ t, ev_kind t = KTool) tools in
  let session_agents := filter (λ a, session_id a = target_sid) agents in
  match session_agents with
  | [] => Some (mkResult ∅ ∅ tools)
  | _ =>
      let task_pool := filter is_task tools in
      let sorted_agents := sorted_by started_at session_agents in
      let agent_labels := (pair_tasks task_pool sorted_agents).2 in
      '(at_, um) ← foldl (assign_step session_agents)
                     (Some (empty_buckets session_agents, [])) tools;
      Some (mkResult at_ agent_labels um)
  end.
End Pairing.

End Correlator.

(** ** The Timeline Builder: [_draw_viz_tree], from the agent lists to
    [state["_tree_timeline"]] *)

Module Timeline.

(** An [agent_group] dict.  [text] is [f"{display_label}  {adur}"], where
    [adur] is the age that [fmt_dur] formats from the clock; the field
    [ag_label] holds the local [display_label]. *)
Record AgentGroup := mkAgentGroup {
  ag_ts : string;
  ag_label : string;
  ag_running : bool;
  ag_agent_id : string;
  ag_children : list Event;
  ag_child_count : nat
}.

(** An element of [merged]: a prompt or tool dict, or an agent group. *)
Inductive Node :=
| NEvent (e : Event)
| NGroup (g : AgentGroup).

Definition node_ts (n : Node) : string :=
  match n with
  | NEvent e => ev_ts e
  | NGroup g => ag_ts g
  end.

(** [ev["kind"] == "prompt"] *)
Definition is_prompt (n : Node) : bool :=
  match n with
  | NEvent e => match ev_kind e with KPrompt => true | KTool => false end
  | NGroup _ => false
  end.

(** [agent_labels.get(a["agent_id"], a["agent_type"])] *)
Definition raw_label (agent_labels : gmap string string) (a : Agent) : string :=
  default (agent_type a) (agent_labels !! agent_id a).

(** [label_counts[lbl] = label_counts.get(lbl, 0) + 1] over [raw_labels]. *)
Definition count_labels (raw_labels : list string) : gmap string nat :=
  foldl (λ m lbl, <[lbl := default 0 (m !! lbl) + 1]> m) ∅ raw_labels.

(** One round of [for i, a in enumerate(all_agent_list)], on the pair
    [(label_seq, agent_group_events)]; [label] is [raw_labels[i]]. *)
Definition group_step (agent_tools : gmap string (list Event))
    (children : list Agent) (label_counts : gmap string nat)
    (st : gmap string nat * list AgentGroup) (al : Agent * string)
    : gmap string nat * list AgentGroup :=
  let '(label_seq, events) := st in
  let '(a, label) := al in
  let a_tools := default [] (agent_tools !! agent_id a) in
  let running := bool_decide (a ∈ children) in
  let '(label_seq', display_label) :=
    if 1 <? default 1 (label_counts !! label) then
      let seq := default 1 (label_seq !! label) in
      (<[label := seq + 1]> label_seq, label +:+ " #" +:+ PyStr.of_nat seq)
    else (label_seq, label) in
  (label_seq',
   events ++ [ {| ag_ts := started_at a;
                  ag_label := display_label;
                  ag_running := running;
                  ag_agent_id := agent_id a;
                  ag_children := a_tools;
                  ag_child_count := length a_tools |} ]).

Definition agent_group_events (agent_tools : gmap string (list Event))
    (agent_labels : gmap string string) (children completed : list Agent)
    : list AgentGroup :=
  let all_agent_list := children ++ completed in
  let raw_labels := raw_label agent_labels <$> all_agent_list in
  let label_counts := count_labels raw_labels in
  (foldl (group_step agent_tools children label_counts) (∅, [])
         (zip all_agent_list raw_labels)).2.

(** [merged], after [merged.sort(key=lambda e: e.get("ts", ""))]. *)
Definition merged (timeline unmatched_tools : list Event)
    (groups : list AgentGroup) : list Node :=
  sorted_by node_ts
    ((NEvent <$> filter (λ e, ev_kind e = KPrompt) timeline)
     ++ (NEvent <$> unmatched_tools)
     ++ (NGroup <$> groups)).

(** A pair [(current_prompt, current_children)] is appended when
    [current_prompt is not None or current_children]. *)
Definition flush (groups : list (option Node * list Node))
    (current_prompt : option Node) (current_children : list Node)
    : list (option Node * list Node) :=
  match current_prompt, current_children with
  | None, [] => groups
  | _, _ => groups ++ [(current_prompt, current_children)]
  end.

(** One round of [for ev in merged], on
    [(groups, current_prompt, current_children)]. *)
Definition group_by_prompt_step
    (st : list (option Node * list Node) * option Node * list Node) (ev : Node)
    : list (option Node * list Node) * option Node * list Node :=
  let '(groups, current_prompt, current_children) := st in
  if is_prompt ev
  then (flush groups current_prompt current_children, Some ev, [])
  else (groups, current_prompt, current_children ++ [ev]).

(** [groups], before [groups.reverse()]. *)
Definition group_by_prompt (merged : list Node) : list (option Node * list Node) :=
  let '(groups, current_prompt, current_children) :=
    foldl group_by_prompt_step ([], None, []) merged in
  flush groups current_prompt current_children.

(** A dict of the final [timeline]: the node and the keys the last two
    loops add to it.  A key a dict does not have is [None], and
    [_under_agent] is read with a [False] default. *)
Record Row := mkRow {
  row_node : Node;
  row_prompt_key : option string;
  row_total : option nat;
  row_collapsed : option bool;
  row_under_agent : bool;
  row_group : Z
}.

Definition plain_row (n : Node) : Row := mkRow n None None None false 0.

(** [total]: every child, and for an agent group its tools as well. *)
Definition child_total (prompt_children : list Node) : nat :=
  foldl (λ total c,
           match c with
           | NGroup g => total + (1 + ag_child_count g)
           | NEvent _ => total + 1
           end) 0 prompt_children.

(** What one child of an expanded prompt appends. *)
Definition expand_child (collapsed_agents : gset string) (child : Node) : list Row :=
  match child with
  | NGroup g =>
      let is_collapsed := bool_decide (ag_agent_id g ∈ collapsed_agents) in
      mkRow child None None (Some is_collapsed) false 0
      :: (if is_collapsed then []
          else (λ agent_tool, mkRow (NEvent agent_tool) None None None true 0)
                 <$> ag_children g)
  | NEvent _ => [plain_row child]
  end.

(** What one [(prompt_ev, prompt_children)] appends. *)
Definition expand_group (collapsed collapsed_agents : gset string)
    (g : option Node * list Node) : list Row :=
  match g.1 with
  | Some prompt_ev =>
      let prompt_key := node_ts prompt_ev in
      mkRow prompt_ev (Some prompt_key) (Some (child_total g.2))
            (Some (bool_decide (prompt_key ∈ collapsed))) false 0
      :: (if decide (prompt_key ∈ collapsed) then []
          else g.2 ≫= expand_child collapsed_agents)
  | None => plain_row <$> g.2
  end.

(** The last loop: [ev["_group"] = group_idx]. *)
Fixpoint tag_groups (group_idx : Z) (rows : list Row) : list Row :=
  match rows with
  | [] => []
  | r :: rows' =>
      let group_idx := if is_prompt (row_node r) then (group_idx + 1)%Z else group_idx in
      mkRow (row_node r) (row_prompt_key r) (row_total r) (row_collapsed r)
            (row_under_agent r) group_idx
      :: tag_groups group_idx rows'
  end.

(** From the reversed groups to the final [timeline]. *)
Definition expand (collapsed collapsed_agents : gset string)
    (groups : list (option Node * list Node)) : list Row :=
  tag_groups (-1) (groups ≫= expand_group collapsed collapsed_agents).

Section Build.
Context `{PyRuntime}.

(** [groups], after [groups.reverse()]: [timeline] is the list of prompt
    and tool dicts of the session, [r_agents] and [c_agents] the running
    and completed agents of the snapshot. *)
Definition build_groups (timeline : list Event) (r_agents c_agents : list Agent)
    (target_sid : string) : option (list (option Node * list Node)) :=
  let children :=
    filter (λ a, session_id a = target_sid ∧ PyStr.falsy (agent_type a) = false)
           r_agents in
  let completed :=
    take 5 (filter (λ a, session_id a = target_sid
                         ∧ PyStr.falsy (agent_type a) = false) c_agents) in
  let all_agents := r_agents ++ c_agents in
  res ← Correlator._match_tools_to_agents timeline all_agents target_sid;
  let groups :=
    agent_group_events (Correlator.agent_tools res) (Correlator.agent_labels res)
                       children completed in
  Some (reverse (group_by_prompt
                   (merged timeline (Correlator.unmatched res) groups))).

(** [state["_tree_timeline"]]. *)
Definition _draw_viz_tree (timeline : list Event) (r_agents c_agents : list Agent)
    (target_sid : string) (collapsed collapsed_agents : gset string)
    : option (list Row) :=
  expand collapsed collapsed_agents
    <$> build_groups timeline r_agents c_agents target_sid.
End Build.

End Timeline.

(** ** The navigation state: the Space/Enter branch of the loop of [main] *)

Module Nav.

Inductive Focus := FLeft | FRight.

(** [ch == 32], and [ch in (10, 13, curses.KEY_ENTER)]. *)
Inductive Key := Space | Enter.

(** The keys of [state] that the branch reads or writes. *)
Record State := mkState {
  focus : Focus;
  selected : Z;
  detail_scroll : Z;
  tree_cursor : Z;
  tree_timeline : list Timeline.Row;
  collapsed_prompts : gset string;
  collapsed_agents : gset string;
  expanded_tool : Z
}.

(** [if k in s: s.discard(k) else: s.add(k)] *)
Definition toggle (k : string) (s : gset string) : gset string :=
  if decide (k ∈ s) then s ∖ {[k]} else {[k]} ∪ s.

(** [tl[tc]] under the guard [0 <= tc < len(tl)]. *)
Definition row_at_cursor (st : State) : option Timeline.Row :=
  if (0 <=? tree_cursor st)%Z
     && (tree_cursor st <? Z.of_nat (length (tree_timeline st)))%Z
  then tree_timeline st !! Z.to_nat (tree_cursor st)
  else None.

Definition on_space_or_enter (ch : Key) (st : State) : State :=
  match ch, focus st with
  | Enter, FLeft =>
      if (0 <=? selected st)%Z
      then mkState FRight (selected st) 0 0 (tree_timeline st)
                   (collapsed_prompts st) (collapsed_agents st) (-1)
      else st
  | Space, FLeft => st
  | _, FRight =>
      match row_at_cursor st with
      | None => st
      | Some ev =>
          match Timeline.row_node ev with
          | Timeline.NEvent e =>
              match ev_kind e with
              | KPrompt =>
                  let pk := default "" (Timeline.row_prompt_key ev) in
                  mkState (focus st) (selected st) (detail_scroll st)
                          (tree_cursor st) (tree_timeline st)
                          (toggle pk (collapsed_prompts st))
                          (collapsed_agents st) (-1)
              | KTool =>
                  mkState (focus st) (selected st) (detail_scroll st)
                          (tree_cursor st) (tree_timeline st)
                          (collapsed_prompts st) (collapsed_agents st)
                          (if (expanded_tool st =? tree_cursor st)%Z
                           then (-1)%Z else tree_cursor st)
              end
          | Timeline.NGroup g =>
              let aid := Timeline.ag_agent_id g in
              mkState (focus st) (selected st) (detail_scroll st)
                      (tree_cursor st) (tree_timeline st)
                      (collapsed_prompts st)
                      (toggle aid (collapsed_agents st)) (-1)
          end
      end
  end.

End Nav.

(** ** The Gantt Compressor: [_build_gantt_segments] and [_time_to_col] *)

Module Gantt.

(** The columns of a prompt row and of a tool row that the function
    reads.  A NULL [duration_ms] is [0]: the code tests [if dur_ms]. *)
Record PromptRow := mkPromptRow { p_created_at : string }.
Record ToolRow := mkToolRow { t_created_at : string; t_duration_ms : Z }.

(** A segment dict: [start], [end], [duration_s] and [offset_s], the
    last two in microseconds.  [prompt_text] is left out. *)
Record Segment := mkSegment {
  seg_start : Z;
  seg_end : Z;
  seg_duration : Z;
  seg_offset : Z
}.

Section Build.
Context `{PyRuntime}.

(** [parse_dt]: a naive result is read as UTC, which leaves its
    microsecond count as it is. *)
Definition parse_dt (ts : string) : option Z :=
  if PyStr.falsy ts then None else micros <$> fromisoformat ts.

(** One round of [for t in tools], on [last_activity]. *)
Definition tool_activity (seg_start window_end last_activity : Z)
    (t : ToolRow) : Z :=
  match parse_dt (t_created_at t) with
  | None => last_activity
  | Some t_start =>
      if (t_start <? seg_start)%Z || (window_end <=? t_start)%Z
      then last_activity
      else
        let t_end :=
          if (t_duration_ms t =? 0)%Z then t_start
          else (t_start + 1000 * t_duration_ms t)%Z in
        Z.max last_activity t_end
  end.

(** One round of [for a in agents], on [last_activity]. *)
Definition agent_activity (now_utc seg_start window_end last_activity : Z)
    (a : Agent) : Z :=
  let a_stop := stopped_at a ≫= parse_dt in
  match parse_dt (started_at a) with
  | None => last_activity
  | Some a_start =>
      if (window_end <=? a_start)%Z
         || match a_stop with
            | Some a_stop => (a_stop <=? seg_start)%Z
            | None => false
            end
      then last_activity
      else
        let effective_end := Z.min (default now_utc a_stop) window_end in
        Z.max last_activity effective_end
  end.

(** [for i, p in enumerate(sorted_prompts)], on
    [(segments, cumulative_offset)]; the tail of the list gives
    [sorted_prompts[i + 1]]. *)
Fixpoint segments_loop (tools : list ToolRow) (agents : list Agent)
    (now_utc : Z) (sorted_prompts : list PromptRow)
    (segments : list Segment) (cumulative_offset : Z) : list Segment * Z :=
  match sorted_prompts with
  | [] => (segments, cumulative_offset)
  | p :: rest =>
      match parse_dt (p_created_at p) with
      | None => segments_loop tools agents now_utc rest segments cumulative_offset
      | Some seg_start =>
          let window_end :=
            match rest with
            | next :: _ => default now_utc (parse_dt (p_created_at next))
            | [] => now_utc
            end in
          let last_activity :=
            foldl (tool_activity seg_start window_end) seg_start tools in
          let last_activity :=
            foldl (agent_activity now_utc seg_start window_end) last_activity agents in
          if (last_activity =? seg_start)%Z
          then segments_loop tools agents now_utc rest segments cumulative_offset
          else
            let seg_end := Z.min last_activity window_end in
            let duration_s := Z.max 1000000 (seg_end - seg_start) in
            segments_loop tools agents now_utc rest
              (segments ++ [ {| seg_start := seg_start;
                                seg_end := (seg_start + duration_s)%Z;
                                seg_duration := duration_s;
                                seg_offset := cumulative_offset |} ])
              (cumulative_offset + duration_s)%Z
      end
  end.

(** Returns [(segments, total_active_s)]. *)
Definition _build_gantt_segments (prompts : list PromptRow)
    (tools : list ToolRow) (agents : list Agent) (now_utc : Z)
    : list Segment * Z :=
  segments_loop tools agents now_utc (sorted_by p_created_at prompts) [] 0.
End Build.

(** A microsecond count as a number of seconds. *)
Definition seconds (us : Z) : Q := us # 1000000.

(** [int(x)]: truncation toward zero. *)
Definition py_int (x : Q) : Z := Z.quot (Qnum x) (Zpos (Qden x)).

(** [max(0.001, x)] *)
Definition at_least_ms (x : Q) : Q := if Qle_bool x (1 # 1000) then 1 # 1000 else x.

(** [(seg["offset_s"] + local_frac * seg["duration_s"]) / total_active_s]
    for a timestamp inside [seg], over exact seconds: no operation
    rounds.  [Gantt64.global_frac_in] is the binary64 computation of the
    code. *)
Definition global_frac_in (dt_val : Z) (seg : Segment) (total_active_s : Z) : Q :=
  let local_frac :=
    (seconds (dt_val - seg_start seg) / at_least_ms (seconds (seg_duration seg)))%Q in
  ((seconds (seg_offset seg) + local_frac * seconds (seg_duration seg))
   / seconds total_active_s)%Q.

(** [seg["start"] <= dt_val <= seg["end"]] *)
Definition inside (dt_val : Z) (seg : Segment) : bool :=
  (seg_start seg <=? dt_val)%Z && (dt_val <=? seg_end seg)%Z.

Definition _time_to_col (dt_val : Z) (segments : list Segment)
    (total_active_s : Z) (bar_w : Z) : Z :=
  match segments with
  | [] => 0%Z
  | _ =>
      if (total_active_s <=? 0)%Z then 0%Z
      else
        match List.find (inside dt_val) segments with
        | Some seg =>
            Z.min (bar_w - 1)
                  (py_int (global_frac_in dt_val seg total_active_s * inject_Z bar_w)%Q)
        | None =>
            match List.find (λ seg, (dt_val <? seg_start seg)%Z) segments with
            | Some seg =>
                let global_frac :=
                  (seconds (seg_offset seg) / seconds total_active_s)%Q in
                Z.min (bar_w - 1) (py_int (global_frac * inject_Z bar_w)%Q)
            | None => (bar_w - 1)%Z
            end
        end
  end.

End Gantt.

(** ** Binary64 floating point

    A Python [float] is a binary64 number.  It is modelled by the
    rational number it stands for, and an operation by the exact
    operation followed by [round]: rounding to the nearest number with a
    significand of 53 bits, a tie to the even significand, with the
    subnormal numbers below [2^-1022] (no exponent under [-1074]).  There
    is no infinity: a result of [2^1024] or more is outside the model. *)

Module F64.

(** [2^e], for a negative [e] as well. *)
Definition pow2 (e : Z) : Q := (2 ^ e)%Q.

(** [floor(log2 x)] for a positive [x]. *)
Definition ilog2 (x : Q) : Z :=
  let k := (Z.log2 (Qnum x) - Z.log2 (Zpos (Qden x)))%Z in
  if Qle_bool (pow2 k) x then k else (k - 1)%Z.

(** The nearest integer, a tie to the even one. *)
Definition nearest_even (x : Q) : Z :=
  let f := Qfloor x in
  match Qcompare (x - inject_Z f) (1 # 2) with
  | Lt => f
  | Gt => (f + 1)%Z
  | Eq => if Z.even f then f else (f + 1)%Z
  end.

(** The binary64 number nearest to [x]. *)
Definition round (x : Q) : Q :=
  if Qeq_bool x 0 then 0%Q
  else
    let e := Z.max (ilog2 (Qabs x) - 52) (-1074) in
    Qred (inject_Z (nearest_even (x / pow2 e)) * pow2 e).

(** [x + y], [x * y] and [x / y] on floats, for [y] that is not zero. *)
Definition fadd (x y : Q) : Q := round (x + y).
Definition fmul (x y : Q) : Q := round (x * y).
Definition fdiv (x y : Q) : Q := round (x / y).

(** The float of an [int], as in [float * int]. *)
Definition of_int (n : Z) : Q := round (inject_Z n).

(** [max(x, y)]: [y] only if it is greater. *)
Definition fmax (x y : Q) : Q := if Qle_bool y x then x else y.

End F64.

(** ** [_time_to_col] as the code computes it *)

Module Gantt64.

(** A segment dict: [start] and [end] in microseconds, [duration_s] and
    [offset_s] as the floats they are. *)
Record Segment := mkSegment {
  start : Z;
  end_ : Z;
  duration_s : Q;
  offset_s : Q
}.

(** [timedelta.total_seconds()]: the microseconds divided by [10**6],
    one division of two integers. *)
Definition total_seconds (us : Z) : Q :=
  F64.fdiv (inject_Z us) (inject_Z 1000000).

(** [seg["start"] <= dt_val <= seg["end"]] *)
Definition inside (dt_val : Z) (seg : Segment) : bool :=
  (start seg <=? dt_val)%Z && (dt_val <=? end_ seg)%Z.

(** [local_frac] and [global_frac] of lines 791-792. *)
Definition global_frac_in (dt_val : Z) (seg : Segment) (total_active_s : Q) : Q :=
  let local_frac :=
    F64.fdiv (total_seconds (dt_val - start seg))
             (F64.fmax (F64.round (1 # 1000)) (duration_s seg)) in
  F64.fdiv (F64.fadd (offset_s seg) (F64.fmul local_frac (duration_s seg)))
           total_active_s.

Definition _time_to_col (dt_val : Z) (segments : list Segment)
    (total_active_s : Q) (bar_w : Z) : Z :=
  match segments with
  | [] => 0%Z
  | _ =>
      if Qle_bool total_active_s 0 then 0%Z
      else
        match List.find (inside dt_val) segments with
        | Some seg =>
            Z.min (bar_w - 1)
                  (Gantt.py_int (F64.fmul (global_frac_in dt_val seg total_active_s)
                                          (F64.of_int bar_w)))
        | None =>
            match List.find (λ seg, (dt_val <? start seg)%Z) segments with
            | Some seg =>
                let global_frac := F64.fdiv (offset_s seg) total_active_s in
                Z.min (bar_w - 1)
                      (Gantt.py_int (F64.fmul global_frac (F64.of_int bar_w)))
            | None => (bar_w - 1)%Z
            end
        end
  end.

End Gantt64.

(** ** A runtime to run the model on examples

    It reads the one timestamp layout that SQLite's [CURRENT_TIMESTAMP]
    writes, [YYYY-MM-DD HH:MM:SS] ([fromisoformat] also with [T] between
    date and time), as a naive [datetime] counted in microseconds from
    1970-01-01, and refuses every other string; [str_lower] lowers the
    letters [A-Z].  On such timestamps and on ASCII text it computes what
    Python computes. *)

Module Concrete.

Definition digit (c : ascii) : option Z :=
  let n := Z.of_N (N_of_ascii c) in
  if (48 <=? n)%Z && (n <=? 57)%Z then Some (n - 48)%Z else None.

Fixpoint number (acc : Z) (l : list ascii) : option Z :=
  match l with
  | [] => Some acc
  | c :: l' => d ← digit c; number (10 * acc + d)%Z l'
  end.

Definition is_leap (y : Z) : bool :=
  ((y mod 4 =? 0) && negb (y mod 100 =? 0) || (y mod 400 =? 0))%Z.

Definition days_in_month (y m : Z) : Z :=
  if (m =? 2)%Z then (if is_leap y then 29 else 28)%Z
  else if ((m =? 4) || (m =? 6) || (m =? 9) || (m =? 11))%Z then 30%Z
  else 31%Z.

(** Days from 1970-01-01 to the given day of the Gregorian calendar. *)
Definition days_from_civil (y m d : Z) : Z :=
  let y' := (if m <=? 2 then y - 1 else y)%Z in
  let era := (y' / 400)%Z in
  let yoe := (y' - era * 400)%Z in
  let doy := ((153 * (if 2 <? m then m - 3 else m + 9) + 2) / 5 + d - 1)%Z in
  let doe := (yoe * 365 + yoe / 4 - yoe / 100 + doy)%Z in
  (era * 146097 + doe - 719468)%Z.

Definition parse_stamp (allow_T : bool) (s : string) : option datetime :=
  match list_ascii_of_string s with
  | [y1; y2; y3; y4; d1; m1; m2; d2; a1; a2; sep; h1; h2; c1; n1; n2; c2; s1; s2] =>
      y ← number 0 [y1; y2; y3; y4];
      m ← number 0 [m1; m2];
      d ← number 0 [a1; a2];
      hh ← number 0 [h1; h2];
      mm ← number 0 [n1; n2];
      ss ← number 0 [s1; s2];
      if Ascii.eqb d1 "-" && Ascii.eqb d2 "-" && Ascii.eqb c1 ":" && Ascii.eqb c2 ":"
         && (Ascii.eqb sep " " || (allow_T && Ascii.eqb sep "T"))
         && (1 <=? y)%Z && (1 <=? m)%Z && (m <=? 12)%Z
         && (1 <=? d)%Z && (d <=? days_in_month y m)%Z
         && (hh <? 24)%Z && (mm <? 60)%Z && (ss <? 60)%Z
      then Some (mkDatetime
                   (((days_from_civil y m d * 86400 + hh * 3600 + mm * 60 + ss)
                     * 1000000)%Z) false)
      else None
  | _ => None
  end.

Definition lower_ascii (c : ascii) : ascii :=
  let n := N_of_ascii c in
  if (65 <=? n)%N && (n <=? 90)%N then ascii_of_N (n + 32) else c.

Fixpoint lower (s : string) : string :=
  match s with
  | EmptyString => EmptyString
  | String c s' => String (lower_ascii c) (lower s')
  end.

Definition runtime : PyRuntime :=
  {| fromisoformat := parse_stamp true;
     strptime_seconds := parse_stamp false;
     str_lower := lower |}.

End Concrete.


(** ** Python sequence operations: slices and repetition *)

Module PySeq.

(** How a slice bound is read against a sequence of [len] elements: a
    negative bound counts from the end, and every bound is cut to
    [0..len]. *)
Definition norm_index (i len : Z) : Z :=
  if (i <? 0)%Z then Z.max 0 (len + i) else Z.min i len.

(** [l[a:b]] *)
Definition slice {A} (l : list A) (a b : Z) : list A :=
  let len := Z.of_nat (length l) in
  let a' := norm_index a len in
  let b' := norm_index b len in
  take (Z.to_nat (b' - a')) (drop (Z.to_nat a') l).

(** [l[:b]] and [l[a:]] *)
Definition upto {A} (l : list A) (b : Z) : list A := slice l 0 b.
Definition from {A} (l : list A) (a : Z) : list A :=
  slice l a (Z.of_nat (length l)).


End PySeq.

(** ** Short forms of identifiers and wrapped prompts

    [len] and slices of a [str] count characters, so a string is here a
    list of characters of any type. *)

Module Text.
Section Chars.
Context {A : Type}.

(** [short_id]: [s[:7] if len(s) > 8 else s] *)
Definition short_id (s : list A) : list A :=
  if 8 <? length s then PySeq.upto s 7 else s.

(** [short_session]: [s[:6] if len(s) > 8 else s] *)
Definition short_session (s : list A) : list A :=
  if 8 <? length s then PySeq.upto s 6 else s.

(** The loop of [_draw_viz_tree] that wraps the text of an expanded
    prompt: [while text and len(lines) < 4], each round adding
    [text[:text_w]] to [lines] and going on with [text[text_w:]].  Every
    round adds a line, so four rounds are all the loop can make. *)
Fixpoint wrap_loop (rounds : nat) (text : list A) (text_w : Z)
    (lines : list (list A)) : list (list A) :=
  match rounds with
  | 0 => lines
  | S rounds' =>
      match text with
      | [] => lines
      | _ :: _ =>
          if length lines <? 4
          then wrap_loop rounds' (PySeq.from text text_w) text_w
                         (lines ++ [PySeq.upto text text_w])
          else lines
      end
  end.

Definition wrap_prompt (text : list A) (text_w : Z) : list (list A) :=
  wrap_loop 4 text text_w [].
End Chars.
End Text.

(** ** The cursor and the scroll offset of the detail panel: the end of
    the timeline part of [_draw_viz_tree] *)

Module View.

(** [state.pop("_cursor_anchor", None)], then the search for the first
    row whose [_prompt_key] is the anchor. *)
Definition reposition (anchor : option string) (timeline : list Timeline.Row)
    (tree_cursor : Z) : Z :=
  match anchor with
  | None => tree_cursor
  | Some anchor =>
      if PyStr.falsy anchor then tree_cursor
      else match list_find (λ ev, Timeline.row_prompt_key ev = Some anchor) timeline with
           | Some (i, _) => Z.of_nat i
           | None => tree_cursor
           end
  end.

(** [if cursor >= len(timeline): cursor = max(0, len(timeline) - 1)] *)
Definition clamp_cursor (cursor len : Z) : Z :=
  if (len <=? cursor)%Z then Z.max 0 (len - 1) else cursor.

(** [visible_rows], with twelve rows kept for an expanded tool. *)
Definition visible_rows (h expanded_idx len : Z) : Z :=
  let expansion_height :=
    if (0 <=? expanded_idx)%Z && (expanded_idx <? len)%Z then 12%Z else 0%Z in
  Z.max 1 (h - expansion_height).

(** The new [detail_scroll]. *)
Definition scroll_to (cursor scroll visible_rows : Z) : Z :=
  if (cursor <? scroll)%Z then cursor
  else if (scroll + visible_rows <=? cursor)%Z then (cursor - visible_rows + 1)%Z
  else scroll.

(** What the function leaves in [tree_cursor] and [detail_scroll], and
    the slice [visible] of the timeline that it draws. *)
Definition settle (anchor : option string) (timeline : list Timeline.Row)
    (h : Z) (st : Nav.State) : Z * Z * list Timeline.Row :=
  let len := Z.of_nat (length timeline) in
  let cursor := clamp_cursor (reposition anchor timeline (Nav.tree_cursor st)) len in
  let rows := visible_rows h (Nav.expanded_tool st) len in
  let scroll := scroll_to cursor (Nav.detail_scroll st) rows in
  (cursor, scroll, PySeq.slice timeline scroll (scroll + rows)).

Section Draw.
(** What the body of the drawing loop adds to [pr] for the row [ev] at
    the index [idx] of the timeline: the number of lines of a wrapped
    prompt, and else one row and the rows that [_render_tool_expansion]
    reports for an expanded tool.  Of the lines of a wrapped prompt the
    loop draws those that fit; [pr] is then [y + h], which ends the
    outer loop as a larger [pr] does. *)
Context (screen_rows : Z → Timeline.Row → Z).

(** [for i, ev in enumerate(visible): if pr >= y + h: break ...], with
    [pr] counted from [y]: the indices [idx = scroll + i] of the rows
    that the loop reaches and draws. *)
Fixpoint draw_loop (h pr idx : Z) (visible : list Timeline.Row) : list Z :=
  match visible with
  | [] => []
  | ev :: rest =>
      if (h <=? pr)%Z then []
      else idx :: draw_loop h (pr + screen_rows idx ev) (idx + 1) rest
  end.

(** The indices of the rows of the timeline that a redraw draws. *)
Definition drawn (anchor : option string) (timeline : list Timeline.Row)
    (h : Z) (st : Nav.State) : list Z :=
  draw_loop h 0 (settle anchor timeline h st).1.2 (settle anchor timeline h st).2.
End Draw.

End View.

(** ** The other keys of the loop of [main]: Tab, Shift-Tab, Esc, [j],
    [k] and [h] *)

Module Keys.

(** The keys that are modelled.  [Esc] is a plain Esc, with no escape
    sequence behind it. *)
Inductive Key := Tab | ShiftTab | Esc | Down | Up | Left | Space | Enter.

(** The state of [Nav], [state["viz_mode"]], [state.get("game_of_life")]
    and [len(state["visible_items"])]. *)
Record UI := mkUI {
  nav : Nav.State;
  viz_mode : Z;
  game_of_life : bool;
  n_items : Z
}.

(** [len(VIZ_MODES) + (1 if state.get("game_of_life") else 0)] *)
Definition n_modes (ui : UI) : Z := if game_of_life ui then 3 else 2.

(** [detail_scroll = 0; tree_cursor = 0; _expanded_tool = -1], with the
    given focus. *)
Definition reset_panel (f : Nav.Focus) (st : Nav.State) : Nav.State :=
  Nav.mkState f (Nav.selected st) 0 0 (Nav.tree_timeline st)
              (Nav.collapsed_prompts st) (Nav.collapsed_agents st) (-1).

Definition with_cursor (c : Z) (st : Nav.State) : Nav.State :=
  Nav.mkState (Nav.focus st) (Nav.selected st) (Nav.detail_scroll st) c
              (Nav.tree_timeline st) (Nav.collapsed_prompts st)
              (Nav.collapsed_agents st) (Nav.expanded_tool st).

Definition with_selected (sel : Z) (st : Nav.State) : Nav.State :=
  Nav.mkState (Nav.focus st) sel (Nav.detail_scroll st) (Nav.tree_cursor st)
              (Nav.tree_timeline st) (Nav.collapsed_prompts st)
              (Nav.collapsed_agents st) (Nav.expanded_tool st).

Definition with_nav (st : Nav.State) (ui : UI) : UI :=
  mkUI st (viz_mode ui) (game_of_life ui) (n_items ui).

(** One key.  [state["_tree_len"]] is the length of
    [state["_tree_timeline"]]: the two are stored together.  In the
    branch of [h] with the focus on the left only [stats_range] changes,
    which is not part of this state; its graph branch cannot be taken,
    since [VIZ_MODES] has no ["graph"]. *)
Definition on_key (ch : Key) (ui : UI) : UI :=
  let st := nav ui in
  match ch with
  | Tab =>
      mkUI (reset_panel Nav.FRight st) ((viz_mode ui + 1) mod n_modes ui)
           (game_of_life ui) (n_items ui)
  | ShiftTab =>
      mkUI (reset_panel Nav.FRight st) ((viz_mode ui - 1) mod n_modes ui)
           (game_of_life ui) (n_items ui)
  | Esc =>
      match Nav.focus st with
      | Nav.FRight => with_nav (reset_panel Nav.FLeft st) ui
      | Nav.FLeft => with_nav (with_selected (-1) st) ui
      end
  | Down =>
      match Nav.focus st with
      | Nav.FRight =>
          let tc := Nav.tree_cursor st in
          let tl := Z.of_nat (length (Nav.tree_timeline st)) in
          with_nav (with_cursor (Z.min (tc + 1) (Z.max 0 (tl - 1))) st) ui
      | Nav.FLeft =>
          if (0 <? n_items ui)%Z
          then with_nav (with_selected
                           (if (0 <=? Nav.selected st)%Z
                            then Z.min (Nav.selected st + 1) (n_items ui - 1)
                            else 0%Z) st) ui
          else ui
      end
  | Up =>
      match Nav.focus st with
      | Nav.FRight => with_nav (with_cursor (Z.max 0 (Nav.tree_cursor st - 1)) st) ui
      | Nav.FLeft =>
          if (0 <? Nav.selected st)%Z
          then with_nav (with_selected (Nav.selected st - 1) st) ui
          else ui
      end
  | Left =>
      match Nav.focus st with
      | Nav.FRight => with_nav (reset_panel Nav.FLeft st) ui
      | Nav.FLeft => ui
      end
  | Space => with_nav (Nav.on_space_or_enter Nav.Space st) ui
  | Enter => with_nav (Nav.on_space_or_enter Nav.Enter st) ui
  end.

(** A run of keys with no redraw in between. *)
Definition on_keys (keys : list Key) (ui : UI) : UI :=
  foldl (λ ui ch, on_key ch ui) ui keys.

End Keys.

(** ** The Game of Life: [life_step] and [life_render] *)

Module Life.

(** [(i + d) % n] for an index [i] and [d] in [{-1, 1}]: Python's [%]
    gives a result in [0..n-1]. *)
Definition wrap (i : nat) (d : Z) (n : nat) : nat :=
  Z.to_nat ((Z.of_nat i + d) mod Z.of_nat n).

(** A boolean as a summand. *)
Definition int_of (b : bool) : nat := if b then 1 else 0.

(** The new value of the cell [c] of a row, from the rows above, at and
    below it.  [None] is an [IndexError].  [row_0[c]] is read only when
    [n == 2]. *)
Definition step_cell (row_m row_0 row_p : list bool) (cols c : nat) : option bool :=
  let cm := wrap c (-1) cols in
  let cp := wrap c 1 cols in
  a1 ← row_m !! cm; a2 ← row_m !! c; a3 ← row_m !! cp;
  b1 ← row_0 !! cm; b3 ← row_0 !! cp;
  c1 ← row_p !! cm; c2 ← row_p !! c; c3 ← row_p !! cp;
  let n := int_of a1 + int_of a2 + int_of a3 + int_of b1 + int_of b3
           + int_of c1 + int_of c2 + int_of c3 in
  if n =? 3 then Some true
  else if n =? 2 then row_0 !! c
  else Some false.

(** The new row [r]. *)
Definition step_row (grid : list (list bool)) (rows cols r : nat)
    : option (list bool) :=
  row_m ← grid !! wrap r (-1) rows;
  row_0 ← grid !! r;
  row_p ← grid !! wrap r 1 rows;
  mapM (step_cell row_m row_0 row_p cols) (seq 0 cols).

Definition life_step (grid : list (list bool)) (rows cols : nat)
    : option (list (list bool)) :=
  mapM (step_row grid rows cols) (seq 0 rows).

(** [grid[gr][gc]] behind the guard [gr < rows and gc < cols]: a cell
    outside the grid is not lit. *)
Definition dot (grid : list (list bool)) (rows cols gr gc : nat) : option bool :=
  if (gr <? rows) && (gc <? cols) then grid !! gr ≫= (.!! gc) else Some false.

(** [[0, 1, 2, 6][dy]] and [[3, 4, 5, 7][dy]]: the bit of a dot in a
    braille character. *)
Definition dot_bit (dy dx : nat) : Z :=
  match dx, dy with
  | 0, 0 => 0 | 0, 1 => 1 | 0, 2 => 2 | 0, _ => 6
  | _, 0 => 3 | _, 1 => 4 | _, 2 => 5 | _, _ => 7
  end.

(** One round of the two inner loops, on [(code, alive)]. *)
Definition render_dot (grid : list (list bool)) (rows cols cy cx : nat)
    (st : option (Z * nat)) (d : nat * nat) : option (Z * nat) :=
  '(code, alive) ← st;
  lit ← dot grid rows cols (cy * 4 + d.1) (cx * 2 + d.2);
  Some (if (lit : bool)
        then (Z.lor code (Z.shiftl 1 (dot_bit d.1 d.2)), alive + 1)
        else (code, alive)).

(** The code point and the density of the character at [(cy, cx)]. *)
Definition render_cell (grid : list (list bool)) (rows cols cy cx : nat)
    : option (Z * nat) :=
  foldl (render_dot grid rows cols cy cx) (Some (10240%Z, 0))
        (dy ← seq 0 4; dx ← seq 0 2; [(dy, dx)]).

Definition life_render (grid : list (list bool)) (rows cols char_w char_h : nat)
    : option (list (list (Z * nat))) :=
  mapM (λ cy, mapM (render_cell grid rows cols cy) (seq 0 char_w)) (seq 0 char_h).

End Life.

(** ** The bar of an agent track in [_draw_viz_gantt] *)

Module Track.




End Track.

(** ** Vocabulary of the statements *)

Global Instance Bucket_eq_dec : EqDecision Correlator.Bucket.
Proof. solve_decision. Defined.

(** All the per-agent lists of [agent_tools], put end to end. *)
Definition owned (m : gmap string (list Event)) : list Event :=
  concat (map_to_list m).*2.

(** The per-agent lists and the unmatched list together. *)
Definition buckets (res : Correlator.Result) : list Event :=
  owned (Correlator.agent_tools res) ++ Correlator.unmatched res.

(** The events of a list that are not [Task] calls, and the tool events
    of the input list. *)
Definition non_task (l : list Event) : list Event :=
  filter (λ t, ¬ is_task t) l.

Definition tool_events (l : list Event) : list Event :=
  filter (λ t, ev_kind t = KTool) l.

(** The agents of one session. *)
Definition agents_of (sid : string) (agents : list Agent) : list Agent :=
  filter (λ a, session_id a = sid) agents.

Section PairingVocabulary.
Context `{PyRuntime}.
Import Correlator.

(** What the inner loop knows about a candidate it has accepted for
    the agent [a]: the index is not used yet, the call is not later
    than the agent's start (as strings), and the two are [delta]
    microseconds apart, at most six seconds. *)
Definition acceptable (task_pool : list Event) (a : Agent) (used_tasks : gset nat)
    (i : nat) (tk : Event) (delta : Z) : Prop :=
  (i ∉ used_tasks)
  ∧ task_pool !! i = Some tk
  ∧ ev_ts tk ≤ₛ started_at a
  ∧ delta_of (ev_ts tk) (started_at a) = Some delta
  ∧ (delta ≤ 6000000)%Z.

(** The invariant of the inner loop on [(best_task, best_score)]. *)
Definition consider_inv (task_pool : list Event) (a : Agent) (used_tasks : gset nat)
    (st : option (nat * Event) * (Z * Z)) : Prop :=
  (st.2.1 ≤ 6000000)%Z
  ∧ ∀ i tk, st.1 = Some (i, tk) → acceptable task_pool a used_tasks i tk st.2.1.

(** The [Task] calls of the input and the agents in the order the
    first loop visits them, and the claims that loop makes. *)
Definition task_pool_of (tools : list Event) : list Event :=
  filter is_task (tool_events tools).

Definition pairing (tools : list Event) (agents : list Agent) (sid : string)
    : list (Agent * nat * Event) :=
  claims (task_pool_of tools) ∅ (sorted_by started_at (agents_of sid agents)).
End PairingVocabulary.

(** How often a label occurs in a list of labels. *)
Definition occ (lbl : string) (l : list string) : nat :=
  length (filter (λ x, x = lbl) l).

(** The display label of an agent whose raw label is [lbl] and was seen
    [seen] times before: an ordinal is added when the label occurs more
    than once among [raw_labels].  For the agent at position [i] of
    [all_agent_list] the occurrences before position [i] are counted. *)
Definition numbered (raw_labels : list string) (seen : nat) (lbl : string) : string :=
  if 1 <? occ lbl raw_labels
  then lbl +:+ " #" +:+ PyStr.of_nat (1 + seen)
  else lbl.

Definition ordinal_label (raw_labels : list string) (i : nat) (lbl : string) : string :=
  numbered raw_labels (occ lbl (take i raw_labels)) lbl.

(** The display labels of the labels [l] that follow the labels [pre]. *)
Fixpoint display_from (raw_labels pre l : list string) : list string :=
  match l with
  | [] => []
  | lbl :: l' =>
      numbered raw_labels (occ lbl pre) lbl
      :: display_from raw_labels (pre ++ [lbl]) l'
  end.

(** The group dict of the agent [a] under the display label [display]. *)
Definition group_of (agent_tools : gmap string (list Event)) (children : list Agent)
    (a : Agent) (display : string) : Timeline.AgentGroup :=
  let a_tools := default [] (agent_tools !! agent_id a) in
  {| Timeline.ag_ts := started_at a;
     Timeline.ag_label := display;
     Timeline.ag_running := bool_decide (a ∈ children);
     Timeline.ag_agent_id := agent_id a;
     Timeline.ag_children := a_tools;
     Timeline.ag_child_count := length a_tools |}.

(** The nodes of one group in display order: the prompt, if the group has
    one, then its children. *)
Definition flatten_group (g : option Timeline.Node * list Timeline.Node)
    : list Timeline.Node :=
  match g.1 with
  | Some prompt_ev => prompt_ev :: g.2
  | None => g.2
  end.

(** The nodes of the rows that are not nested under an agent. *)
Definition top_level (rows : list Timeline.Row) : list Timeline.Node :=
  Timeline.row_node <$> filter (λ r, Timeline.row_under_agent r = false) rows.

(** The timestamps of the rows of a timeline, in display order. *)
Definition row_stamps (rows : list Timeline.Row) : list string :=
  (λ r, Timeline.node_ts (Timeline.row_node r)) <$> rows.

(** The rows on which Space and Enter toggle a collapse: a prompt row or
    an agent group row. *)
Definition collapsible (r : Timeline.Row) : Prop :=
  match Timeline.row_node r with
  | Timeline.NEvent e => ev_kind e = KPrompt
  | Timeline.NGroup _ => True
  end.



Section ActivityVocabulary.
Context `{PyRuntime}.
Import Gantt.


(** The end of a tool call that counts for a window: the call starts in
    the window. *)
Definition tool_end (w : Z * Z) (t : ToolRow) : option Z :=
  t_start ← parse_dt (t_created_at t);
  if ((w.1 <=? t_start) && (t_start <? w.2))%Z
  then Some (if (t_duration_ms t =? 0)%Z then t_start
             else (t_start + 1000 * t_duration_ms t)%Z)
  else None.

(** The end of an agent that counts for a window: the agent starts
    before the window ends and has not stopped when it starts; a running
    agent ends at [now_utc], and no agent counts beyond the end of the
    window. *)
Definition agent_end (now_utc : Z) (w : Z * Z) (a : Agent) : option Z :=
  a_start ← parse_dt (started_at a);
  let a_stop := stopped_at a ≫= parse_dt in
  if (a_start <? w.2)%Z
     && match a_stop with Some a_stop => (w.1 <? a_stop)%Z | None => true end
  then Some (Z.min (default now_utc a_stop) w.2)
  else None.

(** The ends of all the activity of a window, and the last activity: the
    latest of them, or the start of the window when they are all
    earlier or there is none. *)
Definition activity_ends (tools : list ToolRow) (agents : list Agent)
    (now_utc : Z) (w : Z * Z) : list Z :=
  omap (tool_end w) tools ++ omap (agent_end now_utc w) agents.

Definition last_activity (tools : list ToolRow) (agents : list Agent)
    (now_utc : Z) (w : Z * Z) : Z :=
  foldl Z.max w.1 (activity_ends tools agents now_utc w).

(** A window with activity after its start, and the end of its
    activity: the last activity, cut at the end of the window. *)
Definition active (tools : list ToolRow) (agents : list Agent)
    (now_utc : Z) (w : Z * Z) : Prop :=
  last_activity tools agents now_utc w ≠ w.1.

#[global] Instance active_dec tools agents now_utc w :
  Decision (active tools agents now_utc w).
Proof. unfold active. apply _. Defined.




End ActivityVocabulary.





(** The agents of [session_agents] whose window holds the event, and
    among them those whose [cwd] is the event's. *)
Definition candidates_of (session_agents : list Agent) (t : Event) : list Agent :=
  filter (λ a, Correlator.in_window t a = true) session_agents.

Definition cwd_matches_of (session_agents : list Agent) (t : Event) : list Agent :=
  filter (λ a, PyStr.falsy (cwd a) = false ∧ cwd a = ev_cwd t)
         (candidates_of session_agents t).

Section EligibleVocabulary.
Context `{PyRuntime}.

(** A [Task] call that the inner loop does not skip for the agent [a]:
    its index is not used, both timestamps are there, the call is not
    later than the agent's start (as strings), and the two parse, [delta]
    microseconds apart. *)
Definition eligible (task_pool : list Event) (a : Agent) (used_tasks : gset nat)
    (j : nat) (tj : Event) (delta : Z) : Prop :=
  (j ∉ used_tasks)
  ∧ task_pool !! j = Some tj
  ∧ ev_ts tj ≠ ""
  ∧ started_at a ≠ ""
  ∧ ev_ts tj ≤ₛ started_at a
  ∧ Correlator.delta_of (ev_ts tj) (started_at a) = Some delta.

(** The score is at most six seconds, and it is the initial score while
    nothing is chosen. *)
Definition fresh_or_chosen (st : option (nat * Event) * (Z * Z)) : Prop :=
  (st.2.1 ≤ 6000000)%Z ∧ (st.1 = None → st.2 = Correlator.initial_score).

(** What the inner loop has made sure of for the calls it has seen. *)
Definition nearest_inv (task_pool : list Event) (a : Agent) (used_tasks : gset nat)
    (seen : list (nat * Event)) (st : option (nat * Event) * (Z * Z)) : Prop :=
  ∀ j tj delta, (j, tj) ∈ seen → eligible task_pool a used_tasks j tj delta →
                (st.2.1 ≤ delta)%Z ∧ ((delta < 6000000)%Z → is_Some st.1).
End EligibleVocabulary.

(** An agent group whose [_child_count] is the number of its children,
    as [_draw_viz_tree] builds them. *)
Definition counted (n : Timeline.Node) : Prop :=
  match n with
  | Timeline.NGroup g => Timeline.ag_child_count g = length (Timeline.ag_children g)
  | Timeline.NEvent _ => True
  end.

(** The cursor of the detail panel is on a row of the stored timeline,
    or at [0] when there is none; the selection of the list is [-1] (no
    selection) or an index of the list, or [0] when the list is empty. *)
Definition cursor_in_range (ui : Keys.UI) : Prop :=
  (0 ≤ Nav.tree_cursor (Keys.nav ui)
     ≤ Z.max 0 (Z.of_nat (length (Nav.tree_timeline (Keys.nav ui))) - 1))%Z.

Definition selection_in_range (ui : Keys.UI) : Prop :=
  (-1 ≤ Nav.selected (Keys.nav ui) ≤ Z.max 0 (Keys.n_items ui - 1))%Z.

(** A grid of [rows] rows of [cols] cells. *)
Definition well_shaped (grid : list (list bool)) (rows cols : nat) : Prop :=
  length grid = rows ∧ Forall (λ row, length row = cols) grid.

(** The grid with no live cell. *)
Definition dead_grid (rows cols : nat) : list (list bool) :=
  replicate rows (replicate cols false).

(** How many of the eight low bits of a number are set. *)
Definition dots_set (code : Z) : nat :=
  length (filter (λ k, Z.testbit code (Z.of_nat k) = true) (seq 0 8)).

(** The cell of a grid at a row and a column; a place outside the grid
    holds no live cell. *)
Definition cell_at (grid : list (list bool)) (gr gc : nat) : bool :=
  default false (grid !! gr ≫= (.!! gc)).

(** ** Sample data for the examples: one session, [s1], and one working
    directory. *)

Module Sample.

Definition prompt_at (ts : string) : Event :=
  mkEvent ts KPrompt "fix the bug" None "".

Definition read_at (ts : string) : Event :=
  mkEvent ts KTool "Read file" (Some "Read") "/work".

Definition task_at (ts text : string) : Event :=
  mkEvent ts KTool text (Some "Task") "/work".

Definition agent (id type start : string) (stop : option string) : Agent :=
  mkAgent id type "s1" "/work" start stop.

(** A detail panel with one prompt and one [Read] under it; the cursor is
    on the prompt and the detail of the [Read] (row 1) is expanded. *)
(** A session of two prompts a minute apart: a [Read] of three seconds
    five seconds into the first, a [Read] ten seconds into the second,
    looked at two minutes after the first prompt. *)
Definition t0 : Z := 1704067200000000.



Definition two_segments : list Gantt.Segment :=
  [Gantt.mkSegment t0 (t0 + 8000000) 8000000 0;
   Gantt.mkSegment (t0 + 60000000) (t0 + 70000000) 10000000 8000000].

Definition prompt_row : Timeline.Row :=
  Timeline.mkRow (Timeline.NEvent (prompt_at "2024-01-01 00:00:00"))
                 (Some "2024-01-01 00:00:00") (Some 1) (Some false) false 0.

Definition panel : Nav.State :=
  Nav.mkState Nav.FRight 0 0 0
    (Timeline.expand ∅ ∅
       [(Some (Timeline.NEvent (prompt_at "2024-01-01 00:00:00")),
         [Timeline.NEvent (read_at "2024-01-01 00:00:02")])])
    ∅ ∅ 1.

End Sample.

(** ** Sample data for the further properties *)

Module Cases.

(** A running agent of the session, a [Read] ten seconds after its
    start, and a [Task] call two seconds before it. *)
Definition explorer : Agent :=
  Sample.agent "a1" "Explore" "2024-01-01 00:00:10" None.

Definition read20 : Event := Sample.read_at "2024-01-01 00:00:20".

Definition task8 : Event :=
  Sample.task_at "2024-01-01 00:00:08" "Explore: look around".

(** The panel of [Sample], in the first view, beside a list of three
    items. *)
Definition ui : Keys.UI := Keys.mkUI Sample.panel 0 false 3.

(** The two segments of [Sample] and their total. *)
Definition total : Z := 18000000.

(** A prompt of eighty characters with two [Read]s under it, and the
    rows of the screen each takes in a panel whose text is [text_w]
    wide: the lines of the wrapped prompt, one row for a [Read]. *)
Definition long_prompt : Event :=
  mkEvent "2024-01-01 00:00:00" KPrompt
    "aaaaaaaaaabbbbbbbbbbccccccccccddddddddddeeeeeeeeeeffffffffffgggggggggghhhhhhhhhh"
    None "".

Definition long_timeline : list Timeline.Row :=
  Timeline.expand ∅ ∅
    [(Some (Timeline.NEvent long_prompt),
      [Timeline.NEvent (Sample.read_at "2024-01-01 00:00:02");
       Timeline.NEvent (Sample.read_at "2024-01-01 00:00:03")])].

Definition screen_rows (text_w : Z) (idx : Z) (ev : Timeline.Row) : Z :=
  match Timeline.row_node ev with
  | Timeline.NEvent e =>
      let text := list_ascii_of_string (ev_text e) in
      if Timeline.is_prompt (Timeline.row_node ev)
         && negb (default false (Timeline.row_collapsed ev))
         && (text_w <? Z.of_nat (length text))%Z
      then Z.of_nat (length (Text.wrap_prompt text text_w))
      else 1%Z
  | Timeline.NGroup _ => 1%Z
  end.

(** A blinker in the middle of a grid of five rows and five columns. *)
Definition blinker : list (list bool) :=
  [[false; false; false; false; false];
   [false; false; true;  false; false];
   [false; false; true;  false; false];
   [false; false; true;  false; false];
   [false; false; false; false; false]].

End Cases.

(** * Properties *)

(** ** The order on strings *)

Lemma ascii_compare_refl c : Ascii.compare c c = Eq.
Proof. unfold Ascii.compare. apply N.compare_refl. Qed.

Lemma ascii_compare_lt_trans a b c :
  Ascii.compare a b = Lt → Ascii.compare b c = Lt → Ascii.compare a c = Lt.
Proof. unfold Ascii.compare. rewrite !N.compare_lt_iff. lia. Qed.

Lemma string_compare_refl s : String.compare s s = Eq.
Proof. induction s as [|c s IH]; simpl; [done|]. by rewrite ascii_compare_refl. Qed.

Lemma string_compare_lt_trans s1 s2 s3 :
  String.compare s1 s2 = Lt → String.compare s2 s3 = Lt → String.compare s1 s3 = Lt.
Proof.
  revert s2 s3. induction s1 as [|a s1 IH]; intros [|b s2] [|c s3]; simpl; try done.
  destruct (Ascii.compare a b) eqn:Hab; try done;
    destruct (Ascii.compare b c) eqn:Hbc; try done; intros H12 H23.
  - apply Ascii.compare_eq_iff in Hab, Hbc. subst.
    rewrite ascii_compare_refl. eauto.
  - apply Ascii.compare_eq_iff in Hab. subst. by rewrite Hbc.
  - apply Ascii.compare_eq_iff in Hbc. subst. by rewrite Hab.
  - by rewrite (ascii_compare_lt_trans _ _ _ Hab Hbc).
Qed.

Lemma string_ltb_leb s1 s2 : String.ltb s1 s2 = negb (String.leb s2 s1).
Proof.
  unfold String.ltb, String.leb. rewrite (String.compare_antisym s1 s2).
  by destruct (String.compare s2 s1).
Qed.

Lemma string_leb_refl s : String.leb s s = true.
Proof. unfold String.leb. by rewrite string_compare_refl. Qed.

Lemma string_leb_trans s1 s2 s3 :
  String.leb s1 s2 = true → String.leb s2 s3 = true → String.leb s1 s3 = true.
Proof.
  unfold String.leb.
  destruct (String.compare s1 s2) eqn:H12; try done;
    destruct (String.compare s2 s3) eqn:H23; try done; intros _ _.
  - apply String.compare_eq_iff in H12, H23. subst. by rewrite string_compare_refl.
  - apply String.compare_eq_iff in H12. subst. by rewrite H23.
  - apply String.compare_eq_iff in H23. subst. by rewrite H12.
  - by rewrite (string_compare_lt_trans _ _ _ H12 H23).
Qed.

Global Instance pystr_le_preorder : PreOrder PyStr.le.
Proof.
  split.
  - intros s. apply string_leb_refl.
  - intros s1 s2 s3. apply string_leb_trans.
Qed.

Global Instance pystr_le_total : Total PyStr.le.
Proof. intros s1 s2. apply String.leb_total. Qed.

Global Instance pystr_le_antisym : AntiSymm (=) PyStr.le.
Proof. intros s1 s2. apply String.leb_antisym. Qed.

Lemma pystr_not_le s1 s2 : String.leb s1 s2 = false → s2 ≤ₛ s1.
Proof.
  intros Hf. destruct (String.leb_total s1 s2) as [Hle|Hle]; [congruence|done].
Qed.

Lemma pystr_falsy_empty s : PyStr.falsy s = true ↔ s = "".
Proof. by destruct s. Qed.

(** ** The stable sort *)

Section StableSortFacts.
Context {A : Type} (key : A → string).

Global Instance key_le_preorder : PreOrder (key_le key).
Proof.
  split.
  - intros x. unfold key_le. reflexivity.
  - intros x y z. unfold key_le. apply transitivity.
Qed.

Lemma insert_by_perm x l : insert_by key x l ≡ₚ x :: l.
Proof.
  induction l as [|y l IH]; simpl; [done|].
  case_match; [done|]. rewrite IH. apply Permutation_swap.
Qed.

Lemma sorted_by_perm l : sorted_by key l ≡ₚ l.
Proof.
  induction l as [|x l IH]; simpl; [done|].
  unfold sorted_by in *. simpl. by rewrite insert_by_perm, IH.
Qed.

Lemma insert_by_sorted x l :
  StronglySorted (key_le key) l → StronglySorted (key_le key) (insert_by key x l).
Proof.
  induction 1 as [|y l Hl IH Hy]; simpl.
  - repeat constructor.
  - destruct (String.leb (key x) (key y)) eqn:Hxy.
    + constructor; [by constructor|].
      constructor; [done|].
      eapply Forall_impl; [exact Hy|]. intros z Hz.
      unfold key_le in *. by etransitivity.
    + constructor; [done|].
      rewrite insert_by_perm. constructor; [|done].
      by apply pystr_not_le.
Qed.

Lemma sorted_by_sorted l : StronglySorted (key_le key) (sorted_by key l).
Proof.
  induction l as [|x l IH]; [constructor|].
  unfold sorted_by in *. simpl. by apply insert_by_sorted.
Qed.

(** Stability: among the elements of one key the input order is kept. *)
Lemma insert_by_stable k x l :
  StronglySorted (key_le key) l →
  filter (λ y, key y = k) (insert_by key x l) = filter (λ y, key y = k) (x :: l).
Proof.
  induction 1 as [|y l Hl IH Hy]; simpl; [done|].
  destruct (String.leb (key x) (key y)) eqn:Hxy; [done|].
  rewrite !filter_cons in *. rewrite IH.
  destruct (decide (key x = k)) as [Hx|Hx], (decide (key y = k)) as [Hk|Hk]; try done.
  subst k. rewrite Hk, string_leb_refl in Hxy. done.
Qed.

Lemma sorted_by_stable k l :
  filter (λ y, key y = k) (sorted_by key l) = filter (λ y, key y = k) l.
Proof.
  induction l as [|x l IH]; [done|].
  unfold sorted_by in *. simpl.
  rewrite insert_by_stable by apply sorted_by_sorted.
  rewrite !filter_cons. fold (sorted_by key l). unfold sorted_by. by rewrite IH.
Qed.
End StableSortFacts.

(** ** The Correlator: ownership of the tool events *)

Section Ownership.
Import Correlator.

Lemma max_started_elem best l : max_started best l ∈ best :: l.
Proof.
  revert best. induction l as [|a l IH]; intros best; simpl.
  - apply list_elem_of_here.
  - pose proof (IH (if String.ltb (started_at best) (started_at a) then a else best)) as Hin.
    clear IH. revert Hin. case_match; rewrite !elem_of_cons; tauto.
Qed.

(** An event goes to an agent of the session whose window holds it. *)
Lemma bucket_of_agent sa t aid :
  bucket_of sa t = ToAgent aid →
  ∃ a, a ∈ sa ∧ agent_id a = aid ∧ in_window t a = true.
Proof.
  unfold bucket_of.
  set (cands := filter (λ a, in_window t a = true) sa).
  assert (Hc : ∀ a, a ∈ cands → a ∈ sa ∧ in_window t a = true).
  { intros a Ha. by apply list_elem_of_filter in Ha as [? ?]. }
  clearbody cands. destruct cands as [|a [|b rest]]; [done|..].
  - intros [= <-]. exists a. destruct (Hc a); [apply list_elem_of_here|]. done.
  - set (cm := filter _ _).
    assert (Hm : ∀ m, m ∈ cm → m ∈ a :: b :: rest).
    { intros m Hm. by apply list_elem_of_filter in Hm as [? ?]. }
    clearbody cm.
    assert (Hmax : ToAgent (agent_id (max_started a (b :: rest))) = ToAgent aid →
                   ∃ a0, a0 ∈ sa ∧ agent_id a0 = aid ∧ in_window t a0 = true).
    { intros [= <-]. exists (max_started a (b :: rest)).
      destruct (Hc _ (max_started_elem a (b :: rest))). done. }
    destruct cm as [|m [|m' cm]]; [done| |done].
    intros [= <-]. exists m. destruct (Hc m); [apply Hm, list_elem_of_here|]. done.
Qed.

Lemma bucket_of_unmatched sa t :
  bucket_of sa t = ToUnmatched ↔ ∀ a, a ∈ sa → in_window t a = false.
Proof.
  unfold bucket_of.
  set (cands := filter (λ a, in_window t a = true) sa).
  assert (Hc : ∀ a, a ∈ cands ↔ in_window t a = true ∧ a ∈ sa).
  { intros a. unfold cands. by rewrite list_elem_of_filter. }
  clearbody cands. destruct cands as [|a [|b rest]].
  - split; [intros _ a Ha|done].
    destruct (in_window t a) eqn:Hw; [|done].
    exfalso. eapply not_elem_of_nil, Hc. eauto.
  - split; [done|]. intros Hall.
    destruct (Hc a) as [[Hw Ha] _]; [apply list_elem_of_here|].
    rewrite (Hall a Ha) in Hw. done.
  - split; [by repeat case_match|]. intros Hall.
    destruct (Hc a) as [[Hw Ha] _]; [apply list_elem_of_here|].
    rewrite (Hall a Ha) in Hw. done.
Qed.

Lemma empty_buckets_lookup sa aid :
  empty_buckets sa !! aid =
    if decide (aid ∈ agent_id <$> sa) then Some [] else None.
Proof.
  unfold empty_buckets. induction sa as [|a sa IH]; csimpl.
  - apply lookup_empty.
  - rewrite lookup_insert, IH.
    destruct (decide (agent_id a = aid)) as [<-|Hne].
    + rewrite decide_True; [done|]. apply list_elem_of_here.
    + destruct (decide (aid ∈ agent_id <$> sa)) as [Hin|Hin].
      * rewrite decide_True; [done|]. by apply list_elem_of_further.
      * rewrite decide_False; [done|]. rewrite elem_of_cons. intros [?|?]; [congruence|done].
Qed.

Lemma owned_all_nil (m : gmap string (list Event)) :
  (∀ k l, m !! k = Some l → l = []) → owned m = [].
Proof.
  intros Hnil. unfold owned.
  assert (Hall : Forall (λ kl, kl.2 = []) (map_to_list m)).
  { apply Forall_forall. intros [k l] Hkl. apply elem_of_map_to_list in Hkl. eauto. }
  induction Hall as [|[k l] kls Hkl _ IH]; csimpl; [done|].
  simpl in Hkl. by rewrite Hkl, IH.
Qed.

Lemma owned_empty_buckets sa : owned (empty_buckets sa) = [].
Proof.
  apply owned_all_nil. intros k l. rewrite empty_buckets_lookup.
  case_decide; naive_solver.
Qed.

Lemma owned_append (m : gmap string (list Event)) k l t :
  m !! k = Some l → owned (<[k := l ++ [t]]> m) ≡ₚ t :: owned m.
Proof.
  intros Hk. unfold owned.
  rewrite <-(insert_delete_eq m k (l ++ [t])).
  rewrite map_to_list_insert by apply lookup_delete_eq.
  rewrite <-(map_to_list_delete m k l Hk). csimpl.
  rewrite (Permutation_app_comm l [t]). done.
Qed.

(** The second loop, from any pair of buckets that has a list for every
    agent of the session: it ends without [KeyError], and every bucket
    grows by the events it owns, in input order. *)
Lemma assign_loop sa tools at0 um0 :
  (∀ a, a ∈ sa → is_Some (at0 !! agent_id a)) →
  ∃ at1 um1,
    foldl (assign_step sa) (Some (at0, um0)) tools = Some (at1, um1)
    ∧ um1 = um0 ++ filter (λ t, ¬ is_task t ∧ bucket_of sa t = ToUnmatched) tools
    ∧ (∀ aid, at1 !! aid =
         (λ l, l ++ filter (λ t, ¬ is_task t ∧ bucket_of sa t = ToAgent aid) tools)
           <$> at0 !! aid)
    ∧ owned at1 ++ um1 ≡ₚ owned at0 ++ um0 ++ non_task tools.
Proof.
  revert at0 um0. induction tools as [|t tools IH]; intros at0 um0 Hdom.
  - exists at0, um0. simpl. rewrite !app_nil_r. split_and!; try done.
    intros aid. by destruct (at0 !! aid); simpl; rewrite ?app_nil_r.
  - simpl. unfold non_task. rewrite !filter_cons.
    destruct (decide (is_task t)) as [Htask|Htask].
    + rewrite decide_False by tauto. rewrite decide_False by tauto.
      destruct (IH at0 um0 Hdom) as (at1 & um1 & Hrun & Hum & Hat & Hperm).
      exists at1, um1. split_and!; try done.
      intros aid. rewrite Hat. rewrite filter_cons. by rewrite decide_False by tauto.
    + rewrite (decide_True (P := ¬ is_task t)) by done.
      destruct (bucket_of sa t) as [aid|] eqn:Hb.
      * destruct (bucket_of_agent _ _ _ Hb) as (a & Ha & Hid & _).
        destruct (Hdom a Ha) as [l Hl]. rewrite Hid in Hl.
        unfold append_tool. rewrite Hl. simpl.
        destruct (IH (<[aid := l ++ [t]]> at0) um0) as (at1 & um1 & Hrun & Hum & Hat & Hperm).
        { intros a' Ha'. rewrite lookup_insert. case_decide; [done|]. by apply Hdom. }
        exists at1, um1. split_and!; try done.
        -- rewrite Hum. rewrite decide_False; [done|]. intros [_ Hu]. congruence.
        -- intros aid'. rewrite Hat, lookup_insert, filter_cons.
           destruct (decide (aid = aid')) as [<-|Hne].
           ++ rewrite (decide_True (P := ¬ is_task t ∧ bucket_of sa t = ToAgent aid)) by done.
              rewrite Hl. simpl. by rewrite <-app_assoc.
           ++ rewrite decide_False; [done|]. intros [_ Hu]. congruence.
        -- rewrite Hperm, owned_append by done. simpl.
           fold (non_task tools). by rewrite !Permutation_middle.
      * simpl.
        destruct (IH at0 (um0 ++ [t]) Hdom) as (at1 & um1 & Hrun & Hum & Hat & Hperm).
        exists at1, um1. split_and!; try done.
        -- rewrite Hum. rewrite decide_True by done. by rewrite <-app_assoc.
        -- intros aid. rewrite Hat, filter_cons.
           rewrite decide_False; [done|]. intros [_ Hu]. congruence.
        -- rewrite Hperm. fold (non_task tools).
           rewrite <-!app_assoc. simpl. done.
Qed.
End Ownership.

Section Partition.
Context `{PyRuntime}.
Import Correlator.

(** A session without agents: everything is returned as unmatched. *)
Lemma match_tools_no_agents tools agents sid :
  agents_of sid agents = [] →
  _match_tools_to_agents tools agents sid = Some (mkResult ∅ ∅ (tool_events tools)).
Proof.
  unfold _match_tools_to_agents, agents_of. intros ->. done.
Qed.

(** A session with agents: the function returns, and each bucket is the
    sublist of the tool events that [bucket_of] sends there. *)
Lemma match_tools_with_agents tools agents sid :
  agents_of sid agents ≠ [] →
  ∃ res,
    _match_tools_to_agents tools agents sid = Some res
    ∧ unmatched res =
        filter (λ t, ¬ is_task t ∧ bucket_of (agents_of sid agents) t = ToUnmatched)
               (tool_events tools)
    ∧ (∀ aid, agent_tools res !! aid =
         if decide (aid ∈ agent_id <$> agents_of sid agents)
         then Some (filter (λ t, ¬ is_task t
                                 ∧ bucket_of (agents_of sid agents) t = ToAgent aid)
                           (tool_events tools))
         else None)
    ∧ buckets res ≡ₚ non_task (tool_events tools).
Proof.
  intros Hne. unfold _match_tools_to_agents.
  fold (agents_of sid agents). fold (tool_events tools).
  destruct (assign_loop (agents_of sid agents) (tool_events tools)
              (empty_buckets (agents_of sid agents)) [])
    as (at1 & um1 & Hrun & Hum & Hat & Hperm).
  { intros a Ha. rewrite empty_buckets_lookup.
    rewrite decide_True; [by eexists|]. apply list_elem_of_fmap. by exists a. }
  destruct (agents_of sid agents) as [|a0 sa] eqn:Hsa; [done|].
  rewrite Hrun. eexists. split; [reflexivity|].
  unfold buckets. cbn [unmatched agent_tools].
  split_and!.
  - by rewrite Hum.
  - intros aid. rewrite Hat, empty_buckets_lookup. by case_decide.
  - rewrite Hperm, owned_empty_buckets. done.
Qed.

(** The function always returns. *)
Lemma match_tools_total tools agents sid :
  is_Some (_match_tools_to_agents tools agents sid).
Proof.
  destruct (decide (agents_of sid agents = [])) as [He|Hne].
  - rewrite match_tools_no_agents by done. done.
  - destruct (match_tools_with_agents tools agents sid Hne) as (res & -> & _). done.
Qed.

Lemma non_task_idemp l : non_task (non_task l) = non_task l.
Proof.
  unfold non_task. induction l as [|t l IH]; [done|].
  rewrite filter_cons. case_decide as Ht; [|done].
  rewrite filter_cons. rewrite decide_True by done. by rewrite IH.
Qed.

(** C1, as amended.  The Correlator always returns.  Every tool event
    that is not a [Task] call is placed in exactly one bucket: the
    non-[Task] events of the per-agent lists and of the unmatched list
    together are, with multiplicity, the non-[Task] tool events of the
    input; a per-agent list holds no [Task] call; no event is in the
    lists of two agents, or in an agent's list and in the unmatched
    list.  The unmatched list can hold [Task] calls: for a session that
    has no agent there is no per-agent list and the unmatched list is
    the whole list of tool events. *)
Theorem C1_buckets_partition_non_task tools agents sid :
  ∃ res,
    _match_tools_to_agents tools agents sid = Some res
    ∧ non_task (buckets res) ≡ₚ non_task (tool_events tools)
    ∧ (∀ aid l t, agent_tools res !! aid = Some l → t ∈ l → ¬ is_task t)
    ∧ (∀ aid1 aid2 l1 l2 t,
         aid1 ≠ aid2 →
         agent_tools res !! aid1 = Some l1 →
         agent_tools res !! aid2 = Some l2 →
         t ∈ l1 → t ∉ l2)
    ∧ (∀ aid l t, agent_tools res !! aid = Some l → t ∈ l → t ∉ unmatched res)
    ∧ (agents_of sid agents = [] →
         agent_tools res = ∅ ∧ unmatched res = tool_events tools).
Proof.
  destruct (decide (agents_of sid agents = [])) as [He|Hne].
  - exists (mkResult ∅ ∅ (tool_events tools)).
    split; [by apply match_tools_no_agents|]. simpl.
    split_and!; try done; intros; by simplify_map_eq.
  - destruct (match_tools_with_agents tools agents sid Hne)
      as (res & Hrun & Hum & Hat & Hperm).
    exists res. split; [done|].
    assert (Hin : ∀ aid l t, agent_tools res !! aid = Some l → t ∈ l →
              ¬ is_task t ∧ bucket_of (agents_of sid agents) t = ToAgent aid).
    { intros aid l t Hl Ht. rewrite Hat in Hl. case_decide; [|done].
      injection Hl as <-. apply list_elem_of_filter in Ht. tauto. }
    split_and!.
    + unfold non_task at 1. rewrite Hperm.
      fold (non_task (non_task (tool_events tools))). by rewrite non_task_idemp.
    + intros aid l t Hl Ht. by destruct (Hin _ _ _ Hl Ht).
    + intros aid1 aid2 l1 l2 t Hne12 Hl1 Hl2 Ht1 Ht2.
      destruct (Hin _ _ _ Hl1 Ht1) as [_ Hb1].
      destruct (Hin _ _ _ Hl2 Ht2) as [_ Hb2]. congruence.
    + intros aid l t Hl Ht Hu.
      destruct (Hin _ _ _ Hl Ht) as [_ Hb1].
      rewrite Hum in Hu. apply list_elem_of_filter in Hu as [[_ Hb2] _]. congruence.
    + done.
Qed.
End Partition.

(** The claim C1 as the specification words it fails for a session that
    has no agent and one [Task] call: the call is returned in the
    unmatched list, so the buckets are not the non-[Task] events. *)
Lemma C1_no_agents_task_is_unmatched :
  ∃ res,
    Correlator._match_tools_to_agents (H := Concrete.runtime)
      [Sample.task_at "2024-01-01 00:00:01" "Explore the code"] [] "s1" = Some res
    ∧ buckets res = [Sample.task_at "2024-01-01 00:00:01" "Explore the code"]
    ∧ non_task (tool_events [Sample.task_at "2024-01-01 00:00:01" "Explore the code"]) = []
    ∧ ¬ buckets res
        ≡ₚ non_task (tool_events [Sample.task_at "2024-01-01 00:00:01" "Explore the code"]).
Proof.
  eexists. split; [reflexivity|]. split; [reflexivity|]. split; [reflexivity|].
  intros Hp. apply Permutation_length in Hp. discriminate Hp.
Qed.

(** ** The Correlator: agent windows *)

Section Windows.
Import Correlator.

Lemma in_window_spec t a :
  in_window t a = true ↔
    started_at a ≠ "" ∧ started_at a ≤ₛ ev_ts t
    ∧ (∀ a_stop, stopped_at a = Some a_stop → ev_ts t ≤ₛ a_stop).
Proof.
  unfold in_window, PyStr.le. rewrite !andb_true_iff, negb_true_iff.
  rewrite <-not_true_iff_false, pystr_falsy_empty.
  destruct (stopped_at a) as [s|]; naive_solver.
Qed.

(** C4, as amended.  The window of an agent is closed at both ends and
    is compared on the timestamp strings: a tool event is a candidate
    of an agent exactly when the agent's [started_at] is not empty,
    [started_at <= ts], and [stopped_at] is null or [ts <= stopped_at].
    So an event whose timestamp equals [stopped_at] is a candidate, and
    a null [stopped_at] puts no upper bound at all on the window (the
    evaluation time is not looked at).  An event goes to the unmatched
    list exactly when it is in no window of the session's agents. *)
Theorem C4_window_is_closed t a :
  (in_window t a = true ↔
     started_at a ≠ "" ∧ started_at a ≤ₛ ev_ts t
     ∧ (∀ a_stop, stopped_at a = Some a_stop → ev_ts t ≤ₛ a_stop))
  ∧ (stopped_at a = Some (ev_ts t) →
     (in_window t a = true ↔ started_at a ≠ "" ∧ started_at a ≤ₛ ev_ts t))
  ∧ (stopped_at a = None →
     (in_window t a = true ↔ started_at a ≠ "" ∧ started_at a ≤ₛ ev_ts t))
  ∧ (∀ session_agents,
       bucket_of session_agents t = ToUnmatched ↔
       ∀ a', a' ∈ session_agents → in_window t a' = false).
Proof.
  split_and!.
  - apply in_window_spec.
  - intros Hs. rewrite in_window_spec, Hs.
    split; [naive_solver|]. intros [? ?]. split_and!; [done..|].
    intros ? [= <-]. reflexivity.
  - intros Hs. rewrite in_window_spec, Hs. naive_solver.
  - intros sa. apply bucket_of_unmatched.
Qed.
End Windows.

(** The claim C4 as the specification words it fails: a [Read] at the
    very second its agent stopped is inside the window and is given to
    the agent. *)
Lemma C4_event_at_stop_is_owned :
  let a := Sample.agent "a1" "Explore" "2024-01-01 00:00:00" (Some "2024-01-01 00:00:10") in
  let t := Sample.read_at "2024-01-01 00:00:10" in
  stopped_at a = Some (ev_ts t)
  ∧ ¬ is_task t
  ∧ Correlator.in_window t a = true
  ∧ ∃ res,
      Correlator._match_tools_to_agents (H := Concrete.runtime) [t] [a] "s1" = Some res
      ∧ Correlator.agent_tools res !! "a1" = Some [t]
      ∧ Correlator.unmatched res = [].
Proof.
  split; [reflexivity|]. split; [by intros [=]|]. split; [reflexivity|].
  eexists. split; [vm_compute; reflexivity|]. split; reflexivity.
Qed.

(** ** The Correlator: pairing [Task] calls with agents *)

Lemma foldl_invariant {A B} (P : A → Prop) (f : A → B → A) (l : list B) (a : A) :
  P a → (∀ a x, x ∈ l → P a → P (f a x)) → P (foldl f a l).
Proof.
  revert a. induction l as [|x l IH]; intros a Ha Hstep; simpl; [done|].
  apply IH.
  - apply Hstep; [apply list_elem_of_here|done].
  - intros a' y Hy. apply Hstep. by apply list_elem_of_further.
Qed.

Section PairingFacts.
Context `{PyRuntime}.
Import Correlator.

Lemma score_lt_fst s1 s2 : score_lt s1 s2 = true → (s1.1 ≤ s2.1)%Z.
Proof. unfold score_lt. lia. Qed.

Lemma consider_preserves task_pool a used_tasks st i tk :
  task_pool !! i = Some tk →
  consider_inv task_pool a used_tasks st →
  consider_inv task_pool a used_tasks (consider a used_tasks st (i, tk)).
Proof.
  intros Hi Hinv. destruct st as [best_task best_score]. unfold consider.
  destruct (decide (i ∈ used_tasks)) as [|Hunused]; [done|].
  destruct (PyStr.falsy (ev_ts tk) || PyStr.falsy (started_at a)
            || String.ltb (started_at a) (ev_ts tk)) eqn:Hskip; [done|].
  destruct (delta_of (ev_ts tk) (started_at a)) as [delta|] eqn:Hdelta; [|done].
  destruct ((best_score.1 <=? delta)%Z && bool_decide (is_Some best_task)); [done|].
  destruct (score_lt (delta, (- type_bonus a tk)%Z) best_score) eqn:Hlt; [|done].
  apply score_lt_fst in Hlt. destruct Hinv as [Hbound _]. simpl in *.
  split; simpl; [lia|]. intros i' tk' [= <- <-].
  apply orb_false_iff in Hskip as [_ Hlate].
  rewrite string_ltb_leb, negb_false_iff in Hlate.
  split_and!; try done. lia.
Qed.

Lemma best_task_for_spec task_pool a used_tasks i tk :
  best_task_for task_pool a used_tasks = Some (i, tk) →
  ∃ delta, acceptable task_pool a used_tasks i tk delta.
Proof.
  unfold best_task_for. intros Hbest.
  assert (Hinv : consider_inv task_pool a used_tasks
            (foldl (consider a used_tasks) (None, initial_score) (imap pair task_pool))).
  { apply foldl_invariant.
    - split; simpl; [lia|done].
    - intros st [j tj] Hin Hst.
      apply elem_of_lookup_imap in Hin as (j' & tj' & [= -> ->] & Hj).
      by apply consider_preserves. }
  destruct Hinv as [_ Hinv]. eauto.
Qed.

(** The claims: who made them, and that no index is claimed twice. *)
Lemma claims_spec task_pool used_tasks sorted_agents :
  Forall (λ c, c.1.1 ∈ sorted_agents
               ∧ ∃ delta, acceptable task_pool c.1.1 used_tasks c.1.2 c.2 delta)
         (claims task_pool used_tasks sorted_agents)
  ∧ NoDup (claims task_pool used_tasks sorted_agents).*1.*2.
Proof.
  revert used_tasks.
  induction sorted_agents as [|a rest IH]; intros used_tasks; simpl.
  - split; constructor.
  - destruct (best_task_for task_pool a used_tasks) as [[idx tk]|] eqn:Hbest.
    + destruct (IH ({[idx]} ∪ used_tasks)) as [Hall Hnd].
      destruct (best_task_for_spec _ _ _ _ _ Hbest) as [delta Hacc].
      assert (Hweak : Forall (λ c, c.1.1 ∈ a :: rest
                  ∧ (∃ delta, acceptable task_pool c.1.1 used_tasks c.1.2 c.2 delta)
                  ∧ c.1.2 ≠ idx)
                (claims task_pool ({[idx]} ∪ used_tasks) rest)).
      { eapply Forall_impl; [exact Hall|]. intros [[a' i'] tk'] [Hin [d Hd]]. simpl in *.
        destruct Hd as (Hfresh & ? & ? & ? & ?).
        split_and!; [by apply list_elem_of_further| |set_solver].
        exists d. split_and!; try done. set_solver. }
      split.
      * constructor; [simpl; split; [apply list_elem_of_here|eauto]|].
        eapply Forall_impl; [exact Hweak|]. naive_solver.
      * csimpl. constructor; [|done].
        intros Hin. apply list_elem_of_fmap in Hin as ([a' i'] & -> & Hin).
        apply list_elem_of_fmap in Hin as ([[a'' i''] tk''] & [= <- <-] & Hin).
        rewrite Forall_forall in Hweak. apply Hweak in Hin. simpl in Hin. tauto.
    + destruct (IH used_tasks) as [Hall Hnd]. split; [|done].
      eapply Forall_impl; [exact Hall|]. intros c [Hin Hacc].
      split; [by apply list_elem_of_further|done].
Qed.

(** [used_tasks] and [agent_labels] are projections of the claims. *)
Lemma pair_tasks_claims task_pool sorted_agents used_tasks agent_labels :
  foldl (pair_step task_pool) (used_tasks, agent_labels) sorted_agents =
    (list_to_set (claims task_pool used_tasks sorted_agents).*1.*2 ∪ used_tasks,
     foldl (λ m c, <[agent_id c.1.1 := ev_text c.2]> m) agent_labels
           (claims task_pool used_tasks sorted_agents)).
Proof.
  revert used_tasks agent_labels.
  induction sorted_agents as [|a rest IH]; intros used_tasks agent_labels; simpl.
  - f_equal. set_solver.
  - unfold pair_step at 2. simpl.
    destruct (best_task_for task_pool a used_tasks) as [[idx tk]|]; [|apply IH].
    rewrite IH. csimpl. f_equal. set_solver.
Qed.

Lemma labels_from_claims (cs : list (Agent * nat * Event)) (m : gmap string string) aid lbl :
  foldl (λ m c, <[agent_id c.1.1 := ev_text c.2]> m) m cs !! aid = Some lbl →
  m !! aid = Some lbl ∨ ∃ c, c ∈ cs ∧ agent_id c.1.1 = aid ∧ lbl = ev_text c.2.
Proof.
  revert m. induction cs as [|c cs IH]; intros m; simpl; [by left|].
  intros Hl. apply IH in Hl as [Hl|(c' & Hin & ? & ?)].
  - rewrite lookup_insert in Hl. case_decide as Hk; [|by left].
    right. exists c. split_and!; [apply list_elem_of_here|done|congruence].
  - right. exists c'. split_and!; [by apply list_elem_of_further|done..].
Qed.
End PairingFacts.

Section PairingTheorem.
Context `{PyRuntime}.
Import Correlator.

Lemma match_tools_labels tools agents sid res :
  _match_tools_to_agents tools agents sid = Some res →
  agent_labels res =
    foldl (λ m c, <[agent_id c.1.1 := ev_text c.2]> m) ∅ (pairing tools agents sid).
Proof.
  unfold _match_tools_to_agents, pairing, task_pool_of.
  fold (agents_of sid agents). fold (tool_events tools).
  destruct (agents_of sid agents) as [|a0 sa] eqn:Hsa.
  - intros [= <-]. done.
  - destruct (foldl _ _ _) as [[at1 um1]|]; [|done].
    intros [= <-]. cbn [agent_labels].
    unfold pair_tasks. by rewrite pair_tasks_claims.
Qed.

(** C7.  Every label that the Correlator takes from a [Task] call comes
    from a claim of the first loop.  For every claim, the call's
    timestamp is at most the agent's [started_at] (compared as the code
    compares them, as strings), the two are at most six seconds apart,
    and no call is claimed by two agents. *)
Theorem C7_task_pairing_bound tools agents sid :
  ∃ res,
    _match_tools_to_agents tools agents sid = Some res
    ∧ (∀ aid lbl,
         agent_labels res !! aid = Some lbl →
         ∃ a i tk, (a, i, tk) ∈ pairing tools agents sid
                   ∧ agent_id a = aid ∧ lbl = ev_text tk)
    ∧ (∀ a i tk,
         (a, i, tk) ∈ pairing tools agents sid →
         a ∈ agents_of sid agents
         ∧ task_pool_of tools !! i = Some tk
         ∧ is_task tk
         ∧ ev_ts tk ≤ₛ started_at a
         ∧ ∃ delta, delta_of (ev_ts tk) (started_at a) = Some delta
                    ∧ (delta ≤ 6000000)%Z)
    ∧ NoDup (pairing tools agents sid).*1.*2.
Proof.
  destruct (match_tools_total tools agents sid) as [res Hres].
  exists res. split; [done|].
  destruct (claims_spec (task_pool_of tools) ∅
              (sorted_by started_at (agents_of sid agents))) as [Hall Hnd].
  split_and!.
  - intros aid lbl Hl. rewrite (match_tools_labels _ _ _ _ Hres) in Hl.
    apply labels_from_claims in Hl as [Hl|([[a i] tk] & Hin & Hid & Hlbl)].
    + by rewrite lookup_empty in Hl.
    + exists a, i, tk. done.
  - intros a i tk Hin. rewrite Forall_forall in Hall.
    destruct (Hall _ Hin) as [Ha (delta & _ & Hi & Hle & Hd & Hb)]. simpl in *.
    split_and!; try done.
    + by rewrite sorted_by_perm in Ha.
    + apply list_elem_of_lookup_2 in Hi. unfold task_pool_of in Hi.
      apply list_elem_of_filter in Hi. tauto.
    + eauto.
  - exact Hnd.
Qed.
End PairingTheorem.

(** Scenario A of the specification, with the [Task] call one second
    before the agent starts: the call labels the agent and the [Read]
    inside the agent's window is owned by the agent. *)
Example scenario_A :
  Correlator._match_tools_to_agents (H := Concrete.runtime)
    [Sample.prompt_at "2024-01-01 00:00:00";
     Sample.task_at "2024-01-01 00:00:00" "researcher: survey the code";
     Sample.read_at "2024-01-01 00:00:02"]
    [Sample.agent "a1" "researcher" "2024-01-01 00:00:01" (Some "2024-01-01 00:00:05")]
    "s1"
  = Some (Correlator.mkResult
            {["a1" := [Sample.read_at "2024-01-01 00:00:02"]]}
            {["a1" := "researcher: survey the code"]}
            []).
Proof. vm_compute. reflexivity. Qed.

(** ** The Timeline Builder: ordinals of repeated labels *)

Section Ordinals.
Import Timeline.

Lemma occ_cons lbl x l :
  occ lbl (x :: l) = (if decide (x = lbl) then 1 else 0) + occ lbl l.
Proof. unfold occ. rewrite filter_cons. by case_decide. Qed.

Lemma occ_app lbl l1 l2 : occ lbl (l1 ++ l2) = occ lbl l1 + occ lbl l2.
Proof. unfold occ. by rewrite filter_app, length_app. Qed.

Lemma count_loop_lookup (l : list string) (m : gmap string nat) lbl :
  foldl (λ m lbl, <[lbl := default 0 (m !! lbl) + 1]> m) m l !! lbl =
    if decide (occ lbl l = 0) then m !! lbl
    else Some (default 0 (m !! lbl) + occ lbl l).
Proof.
  revert m. induction l as [|x l IH]; intros m; simpl; [done|].
  rewrite IH, occ_cons, lookup_insert.
  destruct (decide (x = lbl)) as [->|Hne]; simpl; [|done].
  destruct (decide (occ lbl l = 0)) as [Hz|Hpos]; f_equal; lia.
Qed.

(** The test [label_counts.get(label, 1) > 1]. *)
Lemma count_labels_test raw_labels lbl :
  (1 <? default 1 (count_labels raw_labels !! lbl)) = (1 <? occ lbl raw_labels).
Proof.
  unfold count_labels. rewrite count_loop_lookup, lookup_empty.
  destruct (decide (occ lbl raw_labels = 0)) as [->|Hpos]; simpl; done.
Qed.

(** The loop over the agents, from any state in which [label_seq] holds
    the next ordinal of every repeated label seen so far. *)
Lemma group_loop agent_tools children raw_labels pre agents labels label_seq events :
  length agents = length labels →
  (∀ lbl, 1 < occ lbl raw_labels → default 1 (label_seq !! lbl) = 1 + occ lbl pre) →
  (foldl (group_step agent_tools children (count_labels raw_labels))
         (label_seq, events) (zip agents labels)).2
  = events ++ zip_with (group_of agent_tools children) agents
                       (display_from raw_labels pre labels).
Proof.
  revert pre labels label_seq events.
  induction agents as [|a agents IH]; intros pre [|lbl labels] label_seq events Hlen Hseq;
    simpl in *; try done.
  - by rewrite app_nil_r.
  - injection Hlen as Hlen.
    rewrite count_labels_test. unfold numbered.
    destruct (1 <? occ lbl raw_labels) eqn:Hrep.
    + apply Nat.ltb_lt in Hrep. rewrite (Hseq lbl Hrep).
      rewrite (IH (pre ++ [lbl])); [by rewrite <-app_assoc|done|].
      intros lbl' Hrep'. rewrite lookup_insert, occ_app, occ_cons.
      destruct (decide (lbl = lbl')) as [<-|Hne]; simpl.
      * unfold occ at 3. simpl. lia.
      * unfold occ at 2. simpl. rewrite Hseq by done. lia.
    + rewrite (IH (pre ++ [lbl])); [by rewrite <-app_assoc|done|].
      intros lbl' Hrep'. rewrite occ_app, occ_cons.
      destruct (decide (lbl = lbl')) as [<-|Hne]; simpl.
      * apply Nat.ltb_ge in Hrep. lia.
      * unfold occ at 2. simpl. rewrite Hseq by done. lia.
Qed.

Lemma display_from_lookup raw_labels pre l i lbl :
  l !! i = Some lbl →
  display_from raw_labels pre l !! i
  = Some (numbered raw_labels (occ lbl (pre ++ take i l)) lbl).
Proof.
  revert pre i. induction l as [|x l IH]; intros pre [|i] Hi; simpl in *; try done.
  - injection Hi as ->. by rewrite app_nil_r.
  - rewrite (IH _ _ Hi). by rewrite <-app_assoc.
Qed.

(** C8, as amended.  The agent at position [i] of [all_agent_list]
    (the running agents of the session, then at most five completed
    ones, each in the order of the snapshot) gives the group at
    position [i].  Its display label is its raw label when that label
    is unique; when two or more agents have the label it is the raw
    label followed by [#k], where [k - 1] agents with the same label
    stand before it in [all_agent_list].  The ordinals follow the order
    of that list, not the start times. *)
Theorem C8_ordinals_follow_list_order
    (agent_tools : gmap string (list Event)) (agent_labels : gmap string string)
    (children completed : list Agent) (i : nat) (a : Agent) :
  (children ++ completed) !! i = Some a →
  let raw_labels := raw_label agent_labels <$> (children ++ completed) in
  let lbl := raw_label agent_labels a in
  ∃ g,
    agent_group_events agent_tools agent_labels children completed !! i = Some g
    ∧ ag_agent_id g = agent_id a
    ∧ ag_ts g = started_at a
    ∧ ag_label g =
        if 1 <? occ lbl raw_labels
        then lbl +:+ " #" +:+ PyStr.of_nat (1 + occ lbl (take i raw_labels))
        else lbl.
Proof.
  intros Hi raw_labels lbl. unfold agent_group_events.
  fold raw_labels.
  rewrite (group_loop _ _ raw_labels []); [|by unfold raw_labels; rewrite length_fmap|done].
  simpl.
  assert (Hlbl : raw_labels !! i = Some lbl).
  { unfold raw_labels. by rewrite list_lookup_fmap, Hi. }
  exists (group_of agent_tools children a (ordinal_label raw_labels i lbl)).
  split; [|done].
  rewrite lookup_zip_with, Hi. simpl.
  by rewrite (display_from_lookup _ _ _ _ _ Hlbl).
Qed.
End Ordinals.

(** An instance of C8: the second of two agents of type [Explore]. *)
Lemma C8_second_explore_agent :
  ([Sample.agent "r1" "Explore" "2024-01-01 00:00:10" None]
   ++ [Sample.agent "c1" "Explore" "2024-01-01 00:00:05" (Some "2024-01-01 00:00:08")])
    !! 1 = Some (Sample.agent "c1" "Explore" "2024-01-01 00:00:05" (Some "2024-01-01 00:00:08"))
  ∧ ∃ g,
      Timeline.agent_group_events ∅ ∅
        [Sample.agent "r1" "Explore" "2024-01-01 00:00:10" None]
        [Sample.agent "c1" "Explore" "2024-01-01 00:00:05" (Some "2024-01-01 00:00:08")]
        !! 1 = Some g
      ∧ Timeline.ag_agent_id g = "c1"
      ∧ Timeline.ag_ts g = "2024-01-01 00:00:05"
      ∧ Timeline.ag_label g = "Explore #2".
Proof.
  split; [reflexivity|].
  exact (C8_ordinals_follow_list_order ∅ ∅
           [Sample.agent "r1" "Explore" "2024-01-01 00:00:10" None]
           [Sample.agent "c1" "Explore" "2024-01-01 00:00:05" (Some "2024-01-01 00:00:08")]
           1 _ eq_refl).
Defined.

(** The claim C8 as the specification words it fails: a running agent is
    numbered before a completed one that started earlier. *)
Lemma C8_ordinals_not_by_start_time :
  (λ g, (Timeline.ag_agent_id g, Timeline.ag_ts g, Timeline.ag_label g))
    <$> Timeline.agent_group_events ∅ ∅
          [Sample.agent "r1" "Explore" "2024-01-01 00:00:10" None]
          [Sample.agent "c1" "Explore" "2024-01-01 00:00:05" (Some "2024-01-01 00:00:08")]
  = [("r1", "2024-01-01 00:00:10", "Explore #1");
     ("c1", "2024-01-01 00:00:05", "Explore #2")]
  ∧ "2024-01-01 00:00:05" <ₛ "2024-01-01 00:00:10".
Proof. split; reflexivity. Qed.

(** ** The Timeline Builder: order of the rows *)

Section Order.
Import Timeline.

Lemma flush_flat groups current_prompt current_children :
  flush groups current_prompt current_children ≫= flatten_group
  = (groups ≫= flatten_group) ++ flatten_group (current_prompt, current_children).
Proof.
  unfold flush.
  destruct current_prompt as [p|], current_children as [|c cc];
    rewrite ?bind_app; simpl; rewrite ?app_nil_r; done.
Qed.

Lemma group_by_prompt_step_flat st ev :
  let st' := group_by_prompt_step st ev in
  (st'.1.1 ≫= flatten_group) ++ flatten_group (st'.1.2, st'.2)
  = ((st.1.1 ≫= flatten_group) ++ flatten_group (st.1.2, st.2)) ++ [ev].
Proof.
  destruct st as [[groups cp] cc]. unfold group_by_prompt_step.
  destruct (is_prompt ev); simpl.
  - by rewrite flush_flat.
  - unfold flatten_group. simpl. destruct cp; simpl; by rewrite <-?app_assoc.
Qed.

(** Grouping cuts [merged] into consecutive pieces. *)
Lemma group_by_prompt_flat merged : group_by_prompt merged ≫= flatten_group = merged.
Proof.
  unfold group_by_prompt.
  assert (Hinv : ∀ l st,
    let st' := foldl group_by_prompt_step st l in
    (st'.1.1 ≫= flatten_group) ++ flatten_group (st'.1.2, st'.2)
    = ((st.1.1 ≫= flatten_group) ++ flatten_group (st.1.2, st.2)) ++ l).
  { induction l as [|ev l IH]; intros st; simpl; [by rewrite app_nil_r|].
    rewrite IH, group_by_prompt_step_flat. by rewrite <-app_assoc. }
  specialize (Hinv merged ([], None, [])). simpl in Hinv.
  destruct (foldl group_by_prompt_step ([], None, []) merged) as [[groups cp] cc].
  rewrite flush_flat. exact Hinv.
Qed.

Lemma top_level_app rows1 rows2 :
  top_level (rows1 ++ rows2) = top_level rows1 ++ top_level rows2.
Proof. unfold top_level. by rewrite filter_app, fmap_app. Qed.

Lemma top_level_tag_groups group_idx rows :
  top_level (tag_groups group_idx rows) = top_level rows.
Proof.
  revert group_idx. induction rows as [|r rows IH]; intros group_idx; simpl; [done|].
  unfold top_level in *. rewrite !filter_cons. simpl.
  case_decide; simpl; by rewrite IH.
Qed.

Lemma top_level_expand_child child : top_level (expand_child ∅ child) = [child].
Proof.
  destruct child as [e|g]; simpl; [done|].
  rewrite bool_decide_eq_false_2 by apply not_elem_of_empty.
  unfold top_level. rewrite filter_cons. simpl. f_equal.
  induction (ag_children g) as [|t ts IH]; [done|].
  rewrite fmap_cons, filter_cons. simpl. exact IH.
Qed.

Lemma top_level_expand_children children :
  top_level (children ≫= expand_child ∅) = children.
Proof.
  induction children as [|c children IH]; [done|].
  rewrite bind_cons, top_level_app, top_level_expand_child, IH. done.
Qed.

Lemma top_level_plain_rows children : top_level (plain_row <$> children) = children.
Proof.
  induction children as [|c children IH]; [done|].
  unfold top_level in *. rewrite fmap_cons, filter_cons.
  rewrite decide_True by done. by rewrite fmap_cons, IH.
Qed.

Lemma top_level_expand_group g : top_level (expand_group ∅ ∅ g) = flatten_group g.
Proof.
  destruct g as [[p|] children]; unfold expand_group, flatten_group;
    cbn [fst snd].
  - rewrite decide_False by apply not_elem_of_empty.
    unfold top_level at 1. rewrite filter_cons. simpl. f_equal.
    exact (top_level_expand_children children).
  - apply top_level_plain_rows.
Qed.

(** With nothing collapsed, the rows that are not nested under an agent
    are the nodes of the groups, group after group. *)
Lemma top_level_expand groups :
  top_level (expand ∅ ∅ groups) = groups ≫= flatten_group.
Proof.
  unfold expand. rewrite top_level_tag_groups.
  induction groups as [|g groups IH]; [done|].
  by rewrite !bind_cons, top_level_app, top_level_expand_group, IH.
Qed.

Lemma sorted_bind_each {A B} (R : relation B) (f : A → list B) (l : list A) :
  StronglySorted R (l ≫= f) → Forall (λ x, StronglySorted R (f x)) l.
Proof.
  induction l as [|x l IH]; [constructor|].
  rewrite bind_cons, StronglySorted_app. intros (_ & Hx & Hl).
  constructor; [done|by apply IH].
Qed.
End Order.

Section OrderTheorem.
Context `{PyRuntime}.
Import Timeline.

Lemma build_groups_total timeline r_agents c_agents sid :
  ∃ res,
    Correlator._match_tools_to_agents timeline (r_agents ++ c_agents) sid = Some res
    ∧ build_groups timeline r_agents c_agents sid =
        Some (reverse (group_by_prompt
                (merged timeline (Correlator.unmatched res)
                   (agent_group_events (Correlator.agent_tools res)
                      (Correlator.agent_labels res)
                      (filter (λ a, session_id a = sid ∧ PyStr.falsy (agent_type a) = false)
                              r_agents)
                      (take 5 (filter (λ a, session_id a = sid
                                            ∧ PyStr.falsy (agent_type a) = false)
                                      c_agents)))))).
Proof.
  destruct (match_tools_total timeline (r_agents ++ c_agents) sid) as [res Hres].
  exists res. split; [done|]. unfold build_groups. by rewrite Hres.
Qed.

(** C3, as amended.  The merged sequence of prompts, unmatched tool
    events and agent groups is sorted non-decreasing by timestamp
    (compared as strings) and cut into prompt groups, and the groups
    are shown newest first.  So in the timeline with nothing collapsed,
    the rows that are not nested under an agent are the nodes of the
    groups in display order; within every group they are in
    non-decreasing order, and read from the last group to the first
    they are the whole merged sequence in non-decreasing order.  The
    timeline as a whole is not sorted. *)
Theorem C3_sorted_within_groups timeline r_agents c_agents sid :
  ∃ groups rows,
    build_groups timeline r_agents c_agents sid = Some groups
    ∧ _draw_viz_tree timeline r_agents c_agents sid ∅ ∅ = Some rows
    ∧ top_level rows = groups ≫= flatten_group
    ∧ Forall (λ g, StronglySorted (key_le node_ts) (flatten_group g)) groups
    ∧ StronglySorted (key_le node_ts) (reverse groups ≫= flatten_group).
Proof.
  destruct (build_groups_total timeline r_agents c_agents sid) as (res & _ & Hg).
  eexists _, _. split; [exact Hg|].
  split; [unfold _draw_viz_tree; rewrite Hg; reflexivity|].
  split; [apply top_level_expand|].
  assert (Hsorted : StronglySorted (key_le node_ts)
            (reverse (reverse (group_by_prompt
               (merged timeline (Correlator.unmatched res)
                  (agent_group_events (Correlator.agent_tools res)
                     (Correlator.agent_labels res)
                     (filter (λ a, session_id a = sid ∧ PyStr.falsy (agent_type a) = false)
                             r_agents)
                     (take 5 (filter (λ a, session_id a = sid
                                           ∧ PyStr.falsy (agent_type a) = false)
                                     c_agents))))))
             ≫= flatten_group)).
  { rewrite reverse_involutive, group_by_prompt_flat. apply sorted_by_sorted. }
  split; [|exact Hsorted].
  rewrite reverse_involutive in Hsorted. apply sorted_bind_each in Hsorted.
  by apply Forall_reverse.
Qed.
End OrderTheorem.

(** The claim C3 as the specification words it fails: with two prompts
    the later one is the first row, so the timestamps go down. *)
Lemma C3_newest_prompt_first :
  ∃ rows,
    Timeline._draw_viz_tree (H := Concrete.runtime)
      [Sample.prompt_at "2024-01-01 00:00:00"; Sample.prompt_at "2024-01-01 00:00:10"]
      [] [] "s1" ∅ ∅ = Some rows
    ∧ row_stamps rows = ["2024-01-01 00:00:10"; "2024-01-01 00:00:00"]
    ∧ "2024-01-01 00:00:00" <ₛ "2024-01-01 00:00:10"
    ∧ ¬ Sorted PyStr.le (row_stamps rows).
Proof.
  eexists. split; [vm_compute; reflexivity|].
  split; [reflexivity|]. split; [reflexivity|].
  intros Hs. apply Sorted_inv in Hs as [_ Hhd]. apply HdRel_inv in Hhd.
  discriminate Hhd.
Qed.

(** ** The Timeline Builder: [Task] calls that no agent claimed *)

Section Leaves.
Context `{PyRuntime}.
Import Timeline.

Lemma tag_groups_node group_idx rows r :
  r ∈ tag_groups group_idx rows → ∃ r', r' ∈ rows ∧ row_node r = row_node r'.
Proof.
  revert group_idx. induction rows as [|r0 rows IH]; intros group_idx; simpl.
  - by intros ?%elem_of_nil.
  - rewrite elem_of_cons. intros [->|Hin].
    + exists r0. split; [apply list_elem_of_here|done].
    + destruct (IH _ Hin) as (r' & Hr' & Heq).
      exists r'. split; [by apply list_elem_of_further|done].
Qed.

(** A row shows a node of its group, or a tool of an agent group of its
    group. *)
Lemma expand_group_node collapsed collapsed_agents g r :
  r ∈ expand_group collapsed collapsed_agents g →
  row_node r ∈ flatten_group g
  ∨ ∃ ag t, NGroup ag ∈ flatten_group g ∧ t ∈ ag_children ag ∧ row_node r = NEvent t.
Proof.
  destruct g as [[p|] children]; unfold expand_group, flatten_group; cbn [fst snd].
  - rewrite elem_of_cons. intros [->|Hin]; [left; apply list_elem_of_here|].
    destruct (decide (node_ts p ∈ collapsed)); [by apply elem_of_nil in Hin|].
    apply list_elem_of_bind in Hin as (c & Hr & Hc).
    destruct c as [e|ag]; simpl in Hr.
    + apply list_elem_of_singleton in Hr as ->. left. by apply list_elem_of_further.
    + apply elem_of_cons in Hr as [->|Hr]; [left; by apply list_elem_of_further|].
      destruct (bool_decide (ag_agent_id ag ∈ collapsed_agents));
        [by apply elem_of_nil in Hr|].
      apply list_elem_of_fmap in Hr as (t & -> & Ht).
      right. exists ag, t. split_and!; [by apply list_elem_of_further|done..].
  - intros Hin. apply list_elem_of_fmap in Hin as (c & -> & Hc). by left.
Qed.

Lemma expand_node collapsed collapsed_agents groups r :
  r ∈ expand collapsed collapsed_agents groups →
  row_node r ∈ groups ≫= flatten_group
  ∨ ∃ ag t, NGroup ag ∈ groups ≫= flatten_group
            ∧ t ∈ ag_children ag ∧ row_node r = NEvent t.
Proof.
  unfold expand. intros Hin.
  apply tag_groups_node in Hin as (r' & Hin & ->).
  apply list_elem_of_bind in Hin as (g & Hr & Hg).
  apply expand_group_node in Hr as [Hn|(ag & t & Hag & Ht & Hr)].
  - left. apply list_elem_of_bind. eauto.
  - right. exists ag, t. split_and!; [|done..]. apply list_elem_of_bind. eauto.
Qed.

(** The tools of every agent group are a list of [agent_tools], or
    none. *)
Lemma agent_group_children agent_tools agent_labels children completed ag :
  ag ∈ agent_group_events agent_tools agent_labels children completed →
  ag_children ag = default [] (agent_tools !! ag_agent_id ag).
Proof.
  unfold agent_group_events.
  rewrite (group_loop _ _ (raw_label agent_labels <$> children ++ completed) []);
    [|by rewrite length_fmap|done].
  intros Hin. apply list_elem_of_lookup in Hin as [i Hi].
  apply lookup_zip_with_Some in Hi as (a & d & -> & _ & _). done.
Qed.

(** The first half of C2.  In a session that has an agent, and so
    whenever a [Task] call was claimed, no row of the timeline shows a
    [Task] call, whatever is collapsed. *)
Lemma task_call_is_no_row timeline r_agents c_agents sid collapsed collapsed_agents
    rows r e :
  agents_of sid (r_agents ++ c_agents) ≠ [] →
  _draw_viz_tree timeline r_agents c_agents sid collapsed collapsed_agents = Some rows →
  r ∈ rows → row_node r = NEvent e → ev_kind e = KTool → ¬ is_task e.
Proof.
  intros Hne Hrows Hr He Hkind.
  destruct (match_tools_with_agents timeline (r_agents ++ c_agents) sid Hne)
    as (res & Hres & Hum & Hat & _).
  unfold _draw_viz_tree, build_groups in Hrows. rewrite Hres in Hrows.
  simpl in Hrows. injection Hrows as <-.
  assert (Hnodes : ∀ n,
    n ∈ reverse (group_by_prompt
          (merged timeline (Correlator.unmatched res)
             (agent_group_events (Correlator.agent_tools res)
                (Correlator.agent_labels res)
                (filter (λ a, session_id a = sid ∧ PyStr.falsy (agent_type a) = false)
                        r_agents)
                (take 5 (filter (λ a, session_id a = sid
                                      ∧ PyStr.falsy (agent_type a) = false)
                                c_agents))))) ≫= flatten_group →
    (∃ p, n = NEvent p ∧ ev_kind p = KPrompt)
    ∨ (∃ t, n = NEvent t ∧ t ∈ Correlator.unmatched res)
    ∨ (∃ ag, n = NGroup ag
             ∧ ag_children ag = default [] (Correlator.agent_tools res !! ag_agent_id ag))).
  { intros n Hn. apply list_elem_of_bind in Hn as (g & Hn & Hg).
    rewrite elem_of_reverse in Hg.
    assert (Hm : n ∈ group_by_prompt
                   (merged timeline (Correlator.unmatched res)
                      (agent_group_events (Correlator.agent_tools res)
                         (Correlator.agent_labels res)
                         (filter (λ a, session_id a = sid
                                       ∧ PyStr.falsy (agent_type a) = false) r_agents)
                         (take 5 (filter (λ a, session_id a = sid
                                               ∧ PyStr.falsy (agent_type a) = false)
                                         c_agents)))) ≫= flatten_group).
    { apply list_elem_of_bind. eauto. }
    rewrite group_by_prompt_flat in Hm. unfold merged in Hm.
    rewrite sorted_by_perm in Hm.
    rewrite !elem_of_app in Hm. destruct Hm as [Hm|[Hm|Hm]].
    - apply list_elem_of_fmap in Hm as (p & -> & Hp).
      apply list_elem_of_filter in Hp as [Hp _]. left. eauto.
    - apply list_elem_of_fmap in Hm as (t & -> & Ht). right. left. eauto.
    - apply list_elem_of_fmap in Hm as (ag & -> & Hag). right. right.
      exists ag. split; [done|]. by eapply agent_group_children. }
  assert (Hno_task : ∀ ag t,
    ag_children ag = default [] (Correlator.agent_tools res !! ag_agent_id ag) →
    t ∈ ag_children ag → ¬ is_task t).
  { intros ag t -> Ht. rewrite Hat in Ht. case_decide; simpl in Ht.
    - apply list_elem_of_filter in Ht. tauto.
    - by apply elem_of_nil in Ht. }
  apply expand_node in Hr as [Hn|(ag & t & Hag & Ht & Hr)].
  - rewrite He in Hn. destruct (Hnodes _ Hn) as [(p & [= <-] & Hp)|[(t & [= <-] & Ht)|(ag & [=] & _)]].
    + congruence.
    + rewrite Hum in Ht. apply list_elem_of_filter in Ht. tauto.
  - rewrite He in Hr. injection Hr as ->.
    destruct (Hnodes _ Hag) as [(p & [=] & _)|[(t' & [=] & _)|(ag' & [= <-] & Hch)]].
    by eapply Hno_task.
Qed.
End Leaves.

(** C2, evaluated.  A [Task] call made ten seconds after the only agent
    of the session started is claimed by no agent (no label is taken
    from it).  The second loop of the Correlator skips it like every
    [Task] call, so it is not in the unmatched list and no row of the
    timeline shows it.  In a session without agents the same call is
    returned as unmatched and is a row of the timeline. *)
Theorem C2_unclaimed_task_is_dropped :
  let prompt := Sample.prompt_at "2024-01-01 00:00:00" in
  let task := Sample.task_at "2024-01-01 00:00:20" "Explore the code" in
  let a := Sample.agent "a1" "Explore" "2024-01-01 00:00:10" None in
  (∃ res rows,
     Correlator._match_tools_to_agents (H := Concrete.runtime) [prompt; task] [a] "s1"
       = Some res
     ∧ pairing (H := Concrete.runtime) [prompt; task] [a] "s1" = []
     ∧ Correlator.agent_labels res = ∅
     ∧ Correlator.unmatched res = []
     ∧ Timeline._draw_viz_tree (H := Concrete.runtime) [prompt; task] [a] [] "s1" ∅ ∅
         = Some rows
     ∧ Timeline.row_node <$> rows =
         [Timeline.NEvent prompt;
          Timeline.NGroup
            (Timeline.mkAgentGroup "2024-01-01 00:00:10" "Explore" true "a1" [] 0)])
  ∧ (∃ res rows,
       Correlator._match_tools_to_agents (H := Concrete.runtime) [prompt; task] [] "s1"
         = Some res
       ∧ Correlator.unmatched res = [task]
       ∧ Timeline._draw_viz_tree (H := Concrete.runtime) [prompt; task] [] [] "s1" ∅ ∅
           = Some rows
       ∧ Timeline.row_node <$> rows = [Timeline.NEvent prompt; Timeline.NEvent task]).
Proof.
  split.
  - eexists _, _. split; [vm_compute; reflexivity|].
    split; [vm_compute; reflexivity|]. split; [reflexivity|]. split; [reflexivity|].
    split; [vm_compute; reflexivity|]. reflexivity.
  - eexists _, _. split; [vm_compute; reflexivity|]. split; [reflexivity|].
    split; [vm_compute; reflexivity|]. reflexivity.
Qed.

(** ** The navigation state: collapse toggles *)

Section Toggle.
Import Timeline Nav.

Lemma toggle_twice k (s : gset string) : toggle k (toggle k s) = s.
Proof.
  unfold toggle. destruct (decide (k ∈ s)) as [Hin|Hout].
  - rewrite decide_False by set_solver.
    apply set_eq. intros x. destruct (decide (x = k)); set_solver.
  - rewrite decide_True by set_solver. set_solver.
Qed.

Lemma toggle_even k (s : gset string) n : Nat.iter (2 * n) (toggle k) s = s.
Proof.
  induction n as [|n IH]; [done|].
  replace (2 * S n) with (S (S (2 * n))) by lia. simpl.
  simpl in IH. rewrite IH. apply toggle_twice.
Qed.

Lemma toggle_membership k (s : gset string) x :
  x ∈ toggle k s ↔ (x = k ∧ k ∉ s) ∨ (x ≠ k ∧ x ∈ s).
Proof.
  unfold toggle. destruct (decide (k ∈ s)); destruct (decide (x = k)); set_solver.
Qed.

(** What the key does when the cursor is on a prompt or on an agent
    group: it toggles the key of that row in the matching set, and
    leaves the timeline and the cursor as they are. *)
Lemma on_collapsible_row ch st ev :
  focus st = FRight →
  row_at_cursor st = Some ev →
  collapsible ev →
  let st' := on_space_or_enter ch st in
  focus st' = FRight
  ∧ tree_timeline st' = tree_timeline st
  ∧ tree_cursor st' = tree_cursor st
  ∧ expanded_tool st' = (-1)%Z
  ∧ match row_node ev with
    | NEvent _ =>
        collapsed_prompts st' =
          toggle (default "" (row_prompt_key ev)) (collapsed_prompts st)
        ∧ collapsed_agents st' = collapsed_agents st
    | NGroup g =>
        collapsed_prompts st' = collapsed_prompts st
        ∧ collapsed_agents st' = toggle (ag_agent_id g) (collapsed_agents st)
    end.
Proof.
  intros Hf Hrow Hc. unfold on_space_or_enter. rewrite Hf, Hrow.
  unfold collapsible in Hc.
  destruct ch; destruct (row_node ev) as [e|g]; try rewrite Hc; simpl; done.
Qed.
End Toggle.

(** C9.  Toggling the same key twice gives back the collapsed set, and so
    does any even number of toggles of one key; the timeline rebuilt from
    the same groups is then the same, row for row, and has the same
    number of rows.  This holds for the set of collapsed prompts and for
    the set of collapsed agents.  On a prompt row or an agent group row
    the Space/Enter key is such a toggle, so pressing it twice on an
    unchanged timeline restores both sets. *)
Theorem C9_toggle_twice_is_identity
    (k : string) (collapsed collapsed_agents : gset string)
    (groups : list (option Timeline.Node * list Timeline.Node)) (n : nat) :
  Nav.toggle k (Nav.toggle k collapsed) = collapsed
  ∧ Nat.iter (2 * n) (Nav.toggle k) collapsed = collapsed
  ∧ Timeline.expand (Nav.toggle k (Nav.toggle k collapsed)) collapsed_agents groups
    = Timeline.expand collapsed collapsed_agents groups
  ∧ Timeline.expand collapsed (Nav.toggle k (Nav.toggle k collapsed_agents)) groups
    = Timeline.expand collapsed collapsed_agents groups
  ∧ length (Timeline.expand (Nav.toggle k (Nav.toggle k collapsed)) collapsed_agents groups)
    = length (Timeline.expand collapsed collapsed_agents groups)
  ∧ length (Timeline.expand collapsed (Nav.toggle k (Nav.toggle k collapsed_agents)) groups)
    = length (Timeline.expand collapsed collapsed_agents groups)
  ∧ (∀ ch1 ch2 st ev,
       Nav.focus st = Nav.FRight →
       Nav.row_at_cursor st = Some ev →
       collapsible ev →
       let st'' := Nav.on_space_or_enter ch2 (Nav.on_space_or_enter ch1 st) in
       Nav.collapsed_prompts st'' = Nav.collapsed_prompts st
       ∧ Nav.collapsed_agents st'' = Nav.collapsed_agents st).
Proof.
  rewrite !toggle_twice, toggle_even. split_and!; try done.
  intros ch1 ch2 st ev Hf Hrow Hc.
  destruct (on_collapsible_row ch1 st ev Hf Hrow Hc) as (Hf' & Htl & Hcur & _ & Hset).
  assert (Hrow' : Nav.row_at_cursor (Nav.on_space_or_enter ch1 st) = Some ev).
  { unfold Nav.row_at_cursor in *. by rewrite Htl, Hcur. }
  destruct (on_collapsible_row ch2 _ ev Hf' Hrow' Hc) as (_ & _ & _ & _ & Hset').
  cbv zeta in *.
  destruct (Timeline.row_node ev) as [e|g];
    destruct Hset as [H1 H2], Hset' as [H1' H2'];
    rewrite H1', H2', H1, H2, ?toggle_twice; done.
Qed.

(** Collapsing the prompt of the sample panel hides its row, and a
    second press shows it again. *)
Example panel_collapse_and_expand :
  length (Timeline.expand (Nav.collapsed_prompts Sample.panel) ∅
            [(Some (Timeline.NEvent (Sample.prompt_at "2024-01-01 00:00:00")),
              [Timeline.NEvent (Sample.read_at "2024-01-01 00:00:02")])]) = 2
  ∧ length (Timeline.expand
              (Nav.collapsed_prompts (Nav.on_space_or_enter Nav.Space Sample.panel)) ∅
              [(Some (Timeline.NEvent (Sample.prompt_at "2024-01-01 00:00:00")),
                [Timeline.NEvent (Sample.read_at "2024-01-01 00:00:02")])]) = 1
  ∧ Nav.collapsed_prompts
      (Nav.on_space_or_enter Nav.Space (Nav.on_space_or_enter Nav.Space Sample.panel))
    = Nav.collapsed_prompts Sample.panel.
Proof. split_and!; vm_compute; reflexivity. Qed.

(** C10.  When Space or Enter toggles the collapse of a prompt row or of
    an agent group row, the index of the expanded tool detail is reset to
    [-1]: no tool detail is expanded after the key. *)
Theorem C10_collapse_toggle_clears_expansion
    (ch : Nav.Key) (st : Nav.State) (ev : Timeline.Row) :
  Nav.focus st = Nav.FRight →
  Nav.row_at_cursor st = Some ev →
  collapsible ev →
  Nav.expanded_tool (Nav.on_space_or_enter ch st) = (-1)%Z.
Proof.
  intros Hf Hrow Hc.
  by destruct (on_collapsible_row ch st ev Hf Hrow Hc) as (_ & _ & _ & Hexp & _).
Qed.

(** An instance of C10: in the sample panel the detail of row 1 is
    expanded; Space on the prompt row collapses the prompt and clears
    it. *)
Lemma C10_panel_expansion_cleared :
  Nav.focus Sample.panel = Nav.FRight
  ∧ Nav.row_at_cursor Sample.panel = Some Sample.prompt_row
  ∧ collapsible Sample.prompt_row
  ∧ Nav.expanded_tool Sample.panel = 1%Z
  ∧ Nav.expanded_tool (Nav.on_space_or_enter Nav.Space Sample.panel) = (-1)%Z.
Proof.
  split; [reflexivity|]. split; [reflexivity|]. split; [reflexivity|].
  split; [reflexivity|].
  apply (C10_collapse_toggle_clears_expansion Nav.Space Sample.panel Sample.prompt_row);
    reflexivity.
Defined.

(** ** The Gantt Compressor: offsets and total *)

Section GanttSums.
Context `{PyRuntime}.
Import Gantt.








(** *** The last activity of a window *)








(** *** The windows of prompts that are in the order of time *)






End GanttSums.



(** Scenario C of the specification: a prompt with no tool call and no
    agent in its window gives no segment. *)
Example scenario_C :
  Gantt._build_gantt_segments (H := Concrete.runtime)
    [Gantt.mkPromptRow "2024-01-01 00:00:00"] [] [] (Sample.t0 + 10000000)
  = ([], 0%Z).
Proof. vm_compute. reflexivity. Qed.

(** ** The Gantt Compressor: from a timestamp to a column *)

Section Columns.
Import Gantt.




End Columns.

(** ** Binary64: the error of one rounding, and of several *)

Section Binary64.
Import F64.
Local Open Scope Q_scope.






Lemma pow2_lt a b : (a < b)%Z → pow2 a < pow2 b.
Proof. intros. apply Qpower_lt_compat_l; [assumption|reflexivity]. Qed.



















End Binary64.

(** ** The Gantt Compressor: the column that the code computes *)

Section Columns64.
Import F64 Gantt64.
Local Open Scope Q_scope.








End Columns64.




(** ** The scenarios B and D of the specification *)

(** Scenario B: two agents are running when a [Read] is made in [/work];
    the one whose [cwd] is [/work] owns it, though the other one started
    later. *)
Example scenario_B :
  Correlator._match_tools_to_agents (H := Concrete.runtime)
    [Sample.read_at "2024-01-01 00:00:07"]
    [mkAgent "a1" "Explore" "s1" "/other" "2024-01-01 00:00:05" None;
     mkAgent "a2" "Plan" "s1" "/work" "2024-01-01 00:00:00" None]
    "s1"
  = Some (Correlator.mkResult
            {["a1" := []; "a2" := [Sample.read_at "2024-01-01 00:00:07"]]} ∅ []).
Proof. vm_compute. reflexivity. Qed.

(** Scenario D: a timestamp in the idle gap between the two segments of
    the sample session is drawn in the column where the second segment
    starts. *)
Example scenario_D :
  Gantt._time_to_col (Sample.t0 + 30000000) Sample.two_segments 18000000 18 = 8%Z
  ∧ Gantt._time_to_col (Sample.t0 + 60000000) Sample.two_segments 18000000 18 = 8%Z.
Proof. split; reflexivity. Qed.

(** * Further properties of the code *)

(** ** The Correlator: keys, order and tie-breaks of the ownership *)

Section OwnershipMore.
Context `{PyRuntime}.
Import Correlator.

Lemma max_started_ge best l x :
  x ∈ best :: l → started_at x ≤ₛ started_at (max_started best l).
Proof.
  revert best x. induction l as [|a l IH]; intros best x Hx.
  - apply list_elem_of_singleton in Hx as ->. simpl. reflexivity.
  - simpl. destruct (String.ltb (started_at best) (started_at a)) eqn:Hlt.
    + apply elem_of_cons in Hx as [->|Hx].
      * transitivity (started_at a); [|apply IH, list_elem_of_here].
        rewrite string_ltb_leb, negb_true_iff in Hlt. by apply pystr_not_le.
      * by apply IH.
    + apply elem_of_cons in Hx as [->|Hx]; [apply IH, list_elem_of_here|].
      apply elem_of_cons in Hx as [->|Hx]; [|by apply IH, list_elem_of_further].
      transitivity (started_at best); [|apply IH, list_elem_of_here].
      rewrite string_ltb_leb, negb_false_iff in Hlt. exact Hlt.
Qed.

(** How [bucket_of] chooses among several candidates. *)
Lemma bucket_of_choice sa t aid :
  bucket_of sa t = ToAgent aid →
  ∃ a, a ∈ candidates_of sa t ∧ agent_id a = aid
       ∧ (cwd_matches_of sa t = [a]
          ∨ ∀ a', a' ∈ candidates_of sa t → started_at a' ≤ₛ started_at a).
Proof.
  unfold bucket_of, cwd_matches_of. fold (candidates_of sa t).
  destruct (candidates_of sa t) as [|a [|b rest]] eqn:Hc; [done|..].
  - intros [= <-]. exists a. split_and!; [apply list_elem_of_here|done|].
    right. intros a' Ha'. apply list_elem_of_singleton in Ha' as ->. reflexivity.
  - destruct (filter _ (a :: b :: rest)) as [|m [|m' ms]] eqn:Hm.
    + intros [= <-]. exists (max_started a (b :: rest)).
      split_and!; [apply max_started_elem|done|]. right. apply max_started_ge.
    + intros [= <-]. exists m. split_and!; [|done|by left].
      assert (Hin : m ∈ filter (λ a0, PyStr.falsy (cwd a0) = false ∧ cwd a0 = ev_cwd t)
                               (a :: b :: rest)) by (rewrite Hm; apply list_elem_of_here).
      by apply list_elem_of_filter in Hin as [_ ?].
    + intros [= <-]. exists (max_started a (b :: rest)).
      split_and!; [apply max_started_elem|done|]. right. apply max_started_ge.
Qed.

Lemma bucket_of_cwd_match sa t m :
  cwd_matches_of sa t = [m] → bucket_of sa t = ToAgent (agent_id m).
Proof.
  unfold bucket_of, cwd_matches_of. fold (candidates_of sa t). intros Hm.
  destruct (candidates_of sa t) as [|a [|b rest]] eqn:Hc.
  - done.
  - assert (Hin : m ∈ filter (λ a0, PyStr.falsy (cwd a0) = false ∧ cwd a0 = ev_cwd t) [a])
      by (rewrite Hm; apply list_elem_of_here).
    apply list_elem_of_filter in Hin as [_ Hin].
    by apply list_elem_of_singleton in Hin as ->.
  - by rewrite Hm.
Qed.

(** X1.  The keys of [agent_tools] are the ids of the agents of the
    session, no more and no fewer: an agent that owns no tool event has
    an empty list, and a session without agents has no key. *)
Theorem X1_agent_tools_keys tools agents sid :
  ∃ res,
    _match_tools_to_agents tools agents sid = Some res
    ∧ dom (agent_tools res) = list_to_set (agent_id <$> agents_of sid agents)
    ∧ ∀ a, a ∈ agents_of sid agents → is_Some (agent_tools res !! agent_id a).
Proof.
  destruct (decide (agents_of sid agents = [])) as [He|Hne].
  - exists (mkResult ∅ ∅ (tool_events tools)).
    split; [by apply match_tools_no_agents|]. rewrite He. simpl.
    split; [apply dom_empty_L|]. by intros a ?%elem_of_nil.
  - destruct (match_tools_with_agents tools agents sid Hne) as (res & Hres & _ & Hat & _).
    exists res. split; [done|]. split.
    + apply set_eq. intros aid. rewrite elem_of_dom, Hat, elem_of_list_to_set.
      case_decide; [split; [done|by eexists]|].
      split; [by intros [? ?]|done].
    + intros a Ha. rewrite Hat. rewrite decide_True; [by eexists|].
      apply list_elem_of_fmap. by exists a.
Qed.

(** X2.  Every list the Correlator returns keeps the order of the input:
    the unmatched list and the list of every agent are sublists of the
    tool events of the input. *)
Theorem X2_buckets_keep_input_order tools agents sid :
  ∃ res,
    _match_tools_to_agents tools agents sid = Some res
    ∧ unmatched res `sublist_of` tool_events tools
    ∧ ∀ aid l, agent_tools res !! aid = Some l → l `sublist_of` tool_events tools.
Proof.
  destruct (decide (agents_of sid agents = [])) as [He|Hne].
  - exists (mkResult ∅ ∅ (tool_events tools)).
    split; [by apply match_tools_no_agents|]. simpl. split; [done|].
    intros aid l Hl. by rewrite lookup_empty in Hl.
  - destruct (match_tools_with_agents tools agents sid Hne) as (res & Hres & Hum & Hat & _).
    exists res. split; [done|]. split.
    + rewrite Hum. apply sublist_filter.
    + intros aid l Hl. rewrite Hat in Hl. case_decide; [|done].
      injection Hl as <-. apply sublist_filter.
Qed.

(** X3.  When exactly one of the agents whose window holds a tool event
    has the event's working directory, that agent owns the event,
    whatever the start times of the others. *)
Theorem X3_unique_cwd_match_owns tools agents sid t m :
  t ∈ tool_events tools → ¬ is_task t →
  cwd_matches_of (agents_of sid agents) t = [m] →
  ∃ res l,
    _match_tools_to_agents tools agents sid = Some res
    ∧ agent_tools res !! agent_id m = Some l ∧ t ∈ l.
Proof.
  intros Ht Hnt Hm.
  assert (Hin : m ∈ agents_of sid agents).
  { assert (Hm' : m ∈ cwd_matches_of (agents_of sid agents) t)
      by (rewrite Hm; apply list_elem_of_here).
    unfold cwd_matches_of, candidates_of in Hm'.
    apply list_elem_of_filter in Hm' as [_ Hm'].
    by apply list_elem_of_filter in Hm' as [_ ?]. }
  assert (Hne : agents_of sid agents ≠ []) by (intros He; rewrite He in Hin; by apply elem_of_nil in Hin).
  destruct (match_tools_with_agents tools agents sid Hne) as (res & Hres & _ & Hat & _).
  exists res. eexists. split; [done|]. rewrite Hat.
  rewrite decide_True by (apply list_elem_of_fmap; by exists m).
  split; [reflexivity|]. apply list_elem_of_filter.
  split; [|done]. split; [done|]. by apply bucket_of_cwd_match.
Qed.

(** X4.  The owner of a tool event is an agent of the session whose
    window holds the event; it is the only such agent with the event's
    working directory, or else no agent whose window holds the event
    started later than it. *)
Theorem X4_owner_is_cwd_match_or_latest tools agents sid res aid l t :
  _match_tools_to_agents tools agents sid = Some res →
  agent_tools res !! aid = Some l → t ∈ l →
  ∃ a, a ∈ agents_of sid agents ∧ agent_id a = aid
       ∧ in_window t a = true
       ∧ (cwd_matches_of (agents_of sid agents) t = [a]
          ∨ ∀ a', a' ∈ agents_of sid agents → in_window t a' = true →
                  started_at a' ≤ₛ started_at a).
Proof.
  intros Hres Hl Ht.
  destruct (decide (agents_of sid agents = [])) as [He|Hne].
  { rewrite match_tools_no_agents in Hres by done. injection Hres as <-.
    cbn [agent_tools] in Hl. by rewrite lookup_empty in Hl. }
  destruct (match_tools_with_agents tools agents sid Hne) as (res' & Hres' & _ & Hat & _).
  assert (res' = res) as -> by congruence.
  rewrite Hat in Hl. case_decide; [|done]. injection Hl as <-.
  apply list_elem_of_filter in Ht as [[_ Hb] _].
  apply bucket_of_choice in Hb as (a & Ha & Hid & Hchoice).
  unfold candidates_of in Ha. apply list_elem_of_filter in Ha as [Hw Ha].
  exists a. split_and!; try done.
  destruct Hchoice as [?|Hmax]; [by left|right].
  intros a' Ha' Hw'. apply Hmax. unfold candidates_of. by apply list_elem_of_filter.
Qed.
End OwnershipMore.

(** ** The Correlator: the pairing is greedy and takes the nearest call *)

Section Nearest.
Context `{PyRuntime}.
Import Correlator.

Lemma consider_fresh_or_chosen a used_tasks st it :
  fresh_or_chosen st → fresh_or_chosen (consider a used_tasks st it).
Proof.
  destruct st as [best_task best_score], it as [i tk]. intros [Hb Hn].
  unfold consider. repeat case_match; try done.
  split; simpl; [|done].
  match goal with Hlt : score_lt _ _ = true |- _ => apply score_lt_fst in Hlt end.
  simpl in *. lia.
Qed.

(** A round never raises the best delta and never drops a choice. *)
Lemma consider_monotone a used_tasks st it :
  ((consider a used_tasks st it).2.1 ≤ st.2.1)%Z
  ∧ (is_Some st.1 → is_Some (consider a used_tasks st it).1).
Proof.
  destruct st as [best_task best_score], it as [i tk].
  unfold consider. repeat case_match; simpl; try (split; [lia|done]).
  match goal with Hlt : score_lt _ _ = true |- _ => apply score_lt_fst in Hlt end.
  simpl in *. split; [lia|]. intros _. by eexists.
Qed.

(** After the round of an eligible call the best delta is at most the
    delta of that call, and a call nearer than six seconds leaves a
    choice. *)
Lemma consider_eligible task_pool a used_tasks st j tj delta :
  fresh_or_chosen st →
  eligible task_pool a used_tasks j tj delta →
  ((consider a used_tasks st (j, tj)).2.1 ≤ delta)%Z
  ∧ ((delta < 6000000)%Z → is_Some (consider a used_tasks st (j, tj)).1).
Proof.
  destruct st as [best_task best_score].
  intros [Hb Hn] (Hfresh & _ & Hts & Hstart & Hle & Hdelta). simpl in *.
  unfold consider. rewrite decide_False by done.
  assert (PyStr.falsy (ev_ts tj) = false) as ->.
  { apply not_true_is_false. by rewrite pystr_falsy_empty. }
  assert (PyStr.falsy (started_at a) = false) as ->.
  { apply not_true_is_false. by rewrite pystr_falsy_empty. }
  assert (String.ltb (started_at a) (ev_ts tj) = false) as ->.
  { rewrite string_ltb_leb, negb_false_iff. exact Hle. }
  simpl. rewrite Hdelta.
  destruct ((best_score.1 <=? delta)%Z && bool_decide (is_Some best_task)) eqn:Hskip.
  - apply andb_true_iff in Hskip as [Hd Hs]. apply bool_decide_eq_true in Hs.
    simpl. split; [lia|done].
  - destruct (score_lt (delta, (- type_bonus a tj)%Z) best_score) eqn:Hlt; simpl.
    + split; [lia|]. intros _. by eexists.
    + apply andb_false_iff in Hskip as [Hd|Hs].
      * unfold score_lt in Hlt. simpl in Hlt. lia.
      * apply bool_decide_eq_false in Hs.
        assert (best_task = None) as -> by (destruct best_task; [by destruct Hs|done]).
        rewrite (Hn eq_refl) in Hlt |- *. unfold score_lt, initial_score in *.
        simpl in *. split; [lia|]. intros Hnear. lia.
Qed.

Lemma consider_loop task_pool a used_tasks items st :
  fresh_or_chosen st →
  fresh_or_chosen (foldl (consider a used_tasks) st items)
  ∧ ((foldl (consider a used_tasks) st items).2.1 ≤ st.2.1)%Z
  ∧ (is_Some st.1 → is_Some (foldl (consider a used_tasks) st items).1)
  ∧ nearest_inv task_pool a used_tasks items (foldl (consider a used_tasks) st items).
Proof.
  revert st. induction items as [|[j tj] items IH]; intros st Hst; simpl.
  - split_and!; [done|lia|done|]. by intros j tj delta ?%elem_of_nil.
  - pose proof (consider_fresh_or_chosen a used_tasks st (j, tj) Hst) as Hst1.
    destruct (consider_monotone a used_tasks st (j, tj)) as [Hm1 Hm2].
    destruct (IH _ Hst1) as (Hst' & Hle & Hsome & Hnear).
    split_and!; [done|lia|by auto|].
    intros j' tj' delta Hin Hel. apply elem_of_cons in Hin as [[= -> ->]|Hin].
    + destruct (consider_eligible _ _ _ _ _ _ _ Hst Hel) as [Hd Hs].
      split; [lia|]. intros Hlt. apply Hsome, Hs, Hlt.
    + exact (Hnear j' tj' delta Hin Hel).
Qed.

(** X5.  The call an agent claims is the nearest one: no call that the
    loop could have taken for the agent (unclaimed, not later than the
    agent's start, parseable) is nearer in time to the agent's start
    than the claimed one.  The type hint plays no part in this choice. *)
Theorem X5_claimed_task_is_nearest task_pool a used_tasks i tk :
  best_task_for task_pool a used_tasks = Some (i, tk) →
  ∃ delta,
    acceptable task_pool a used_tasks i tk delta
    ∧ ∀ j tj delta', eligible task_pool a used_tasks j tj delta' →
                     (delta ≤ delta')%Z.
Proof.
  intros Hbest.
  assert (Hinv : consider_inv task_pool a used_tasks
            (foldl (consider a used_tasks) (None, initial_score) (imap pair task_pool))).
  { apply foldl_invariant.
    - split; simpl; [lia|done].
    - intros st [j tj] Hin Hst.
      apply elem_of_lookup_imap in Hin as (j' & tj' & [= -> ->] & Hj).
      by apply consider_preserves. }
  destruct (consider_loop task_pool a used_tasks (imap pair task_pool)
              (None, initial_score)) as (_ & _ & _ & Hnear).
  { split; simpl; [lia|done]. }
  unfold best_task_for in Hbest. destruct Hinv as [_ Hinv].
  exists (foldl (consider a used_tasks) (None, initial_score) (imap pair task_pool)).2.1.
  split; [by apply Hinv|].
  intros j tj delta' Hel.
  apply (Hnear j tj delta'); [|done].
  destruct Hel as (_ & Hj & _). by apply elem_of_lookup_imap_2 with (f := pair) in Hj.
Qed.

(** X6.  An agent is left without a claim only when no call that the
    loop could take for it is nearer than six seconds. *)
Theorem X6_near_task_is_claimed task_pool a used_tasks j tj delta :
  eligible task_pool a used_tasks j tj delta → (delta < 6000000)%Z →
  is_Some (best_task_for task_pool a used_tasks).
Proof.
  intros Hel Hnear.
  destruct (consider_loop task_pool a used_tasks (imap pair task_pool)
              (None, initial_score)) as (_ & _ & _ & Hinv).
  { split; simpl; [lia|done]. }
  unfold best_task_for. apply (Hinv j tj delta); [|done..].
  destruct Hel as (_ & Hj & _). by apply elem_of_lookup_imap_2 with (f := pair) in Hj.
Qed.
End Nearest.

(** ** The Timeline Builder: the count shown on a collapsed prompt *)

Section Counts.
Context `{PyRuntime}.
Import Timeline.

Lemma agent_group_counted agent_tools agent_labels children completed ag :
  ag ∈ agent_group_events agent_tools agent_labels children completed →
  ag_child_count ag = length (ag_children ag).
Proof.
  unfold agent_group_events.
  rewrite (group_loop _ _ (raw_label agent_labels <$> children ++ completed) []);
    [|by rewrite length_fmap|done].
  intros Hin. apply list_elem_of_lookup in Hin as [i Hi].
  apply lookup_zip_with_Some in Hi as (a & d & -> & _ & _). done.
Qed.

Lemma merged_counted timeline unmatched_tools groups :
  Forall (λ g, ag_child_count g = length (ag_children g)) groups →
  Forall counted (merged timeline unmatched_tools groups).
Proof.
  intros Hg. unfold merged. rewrite sorted_by_perm.
  rewrite !Forall_app. split_and!.
  - apply Forall_fmap, Forall_true. done.
  - apply Forall_fmap, Forall_true. done.
  - apply Forall_fmap. exact Hg.
Qed.

Lemma length_expand_child child :
  counted child →
  length (expand_child ∅ child)
  = match child with NGroup g => 1 + ag_child_count g | NEvent _ => 1 end.
Proof.
  destruct child as [e|g]; simpl; [done|]. intros ->.
  rewrite bool_decide_eq_false_2 by apply not_elem_of_empty.
  by rewrite length_fmap.
Qed.

Lemma child_total_rows children :
  Forall counted children →
  child_total children = length (children ≫= expand_child ∅).
Proof.
  unfold child_total.
  assert (Hgen : ∀ n, Forall counted children →
    foldl (λ total c, match c with
                      | NGroup g => total + (1 + ag_child_count g)
                      | NEvent _ => total + 1
                      end) n children
    = n + length (children ≫= expand_child ∅)).
  { induction children as [|c children IH]; intros n Hall; [simpl; lia|].
    cbn [foldl]. apply Forall_cons in Hall as [Hc Hall].
    rewrite IH by done. rewrite bind_cons, length_app, (length_expand_child c Hc).
    destruct c; lia. }
  intros Hall. by rewrite Hgen.
Qed.

(** X7.  The number a collapsed prompt shows is the number of rows the
    collapse hides.  For every prompt group of the timeline: collapsed,
    it is one row, which carries the count [_child_count]; expanded, with
    no agent collapsed, it is that row and [_child_count] more. *)
Theorem X7_collapsed_prompt_count timeline r_agents c_agents sid :
  ∃ groups,
    build_groups timeline r_agents c_agents sid = Some groups
    ∧ ∀ g prompt_ev collapsed,
        g ∈ groups → g.1 = Some prompt_ev →
        (node_ts prompt_ev ∈ collapsed →
           ∃ r, expand_group collapsed ∅ g = [r]
                ∧ row_node r = prompt_ev
                ∧ row_total r = Some (child_total g.2)
                ∧ row_collapsed r = Some true)
        ∧ (node_ts prompt_ev ∉ collapsed →
           length (expand_group collapsed ∅ g) = 1 + child_total g.2).
Proof.
  destruct (build_groups_total timeline r_agents c_agents sid) as (res & _ & Hg).
  eexists. split; [exact Hg|].
  intros g p collapsed Hin Hp.
  assert (Hcounted : Forall counted g.2).
  { rewrite elem_of_reverse in Hin.
    assert (Hall : Forall counted
              (group_by_prompt
                 (merged timeline (Correlator.unmatched res)
                    (agent_group_events (Correlator.agent_tools res)
                       (Correlator.agent_labels res)
                       (filter (λ a, session_id a = sid ∧ PyStr.falsy (agent_type a) = false)
                               r_agents)
                       (take 5 (filter (λ a, session_id a = sid
                                             ∧ PyStr.falsy (agent_type a) = false)
                                       c_agents)))) ≫= flatten_group)).
    { rewrite group_by_prompt_flat. apply merged_counted.
      apply Forall_forall. intros ag. apply agent_group_counted. }
    rewrite Forall_forall in Hall. apply Forall_forall. intros n Hn.
    apply Hall. apply list_elem_of_bind. exists g. split; [|done].
    unfold flatten_group. rewrite Hp. by apply list_elem_of_further. }
  unfold expand_group. rewrite Hp. split.
  - intros Hc. rewrite decide_True by done. eexists. split; [reflexivity|].
    simpl. split_and!; try done. by rewrite bool_decide_eq_true_2.
  - intros Hc. rewrite decide_False by done. simpl.
    by rewrite child_total_rows.
Qed.
End Counts.

(** ** The detail panel: where the cursor and the scroll offset end up *)

Section Settle.
Import View.



End Settle.

(** ** The keys: ranges of the cursor and of the selection, view modes,
    focus *)

Section KeyFacts.
Import Keys.

Lemma on_key_keeps_ranges ch ui :
  cursor_in_range ui → selection_in_range ui →
  cursor_in_range (on_key ch ui) ∧ selection_in_range (on_key ch ui)
  ∧ Nav.tree_timeline (nav (on_key ch ui)) = Nav.tree_timeline (nav ui)
  ∧ n_items (on_key ch ui) = n_items ui.
Proof.
  unfold cursor_in_range, selection_in_range. intros Hc Hs.
  destruct ch; unfold on_key; cbn [nav n_items];
    try (destruct (Nav.focus (nav ui)); simpl);
    repeat case_match; simpl; split_and!; (lia || done).
Qed.

(** X9.  No run of the keys Tab, Shift-Tab, Esc, [j], [k], [h], Space and
    Enter takes the cursor of the detail panel off the rows of the
    stored timeline, or the selection of the list off the list: both
    ranges are kept, and the stored timeline is not touched. *)
Theorem X9_keys_keep_cursor_in_range keys ui :
  cursor_in_range ui → selection_in_range ui →
  cursor_in_range (on_keys keys ui) ∧ selection_in_range (on_keys keys ui)
  ∧ Nav.tree_timeline (nav (on_keys keys ui)) = Nav.tree_timeline (nav ui).
Proof.
  unfold on_keys. revert ui.
  induction keys as [|ch keys IH]; intros ui Hc Hs; simpl; [done|].
  destruct (on_key_keeps_ranges ch ui Hc Hs) as (Hc' & Hs' & Htl & _).
  destruct (IH _ Hc' Hs') as (? & ? & Htl').
  split_and!; [done..|]. by rewrite Htl', Htl.
Qed.

(** X10.  Tab and Shift-Tab step through the view modes in opposite
    directions: each leaves the mode in [0 .. n_modes - 1], and from a
    mode in that range one undoes the other. *)
Theorem X10_tab_and_shift_tab_are_inverse ui :
  (0 ≤ viz_mode (on_key Tab ui) < n_modes ui)%Z
  ∧ (0 ≤ viz_mode (on_key ShiftTab ui) < n_modes ui)%Z
  ∧ ((0 ≤ viz_mode ui < n_modes ui)%Z →
     viz_mode (on_key ShiftTab (on_key Tab ui)) = viz_mode ui
     ∧ viz_mode (on_key Tab (on_key ShiftTab ui)) = viz_mode ui).
Proof.
  unfold on_key, n_modes. simpl.
  destruct (game_of_life ui); simpl.
  - split_and!; [apply Z.mod_pos_bound; lia..|].
    intros Hr.
    assert (viz_mode ui = 0 ∨ viz_mode ui = 1 ∨ viz_mode ui = 2)%Z as [->|[->| ->]]
      by lia; done.
  - split_and!; [apply Z.mod_pos_bound; lia..|].
    intros Hr.
    assert (viz_mode ui = 0 ∨ viz_mode ui = 1)%Z as [->| ->] by lia; done.
Qed.

(** X11.  Whenever a key moves the focus from one panel to the other, the
    detail panel starts afresh: scroll offset and cursor are [0] and no
    tool detail is expanded.  The collapsed prompts and agents are kept. *)
Theorem X11_focus_change_resets_panel ch ui :
  Nav.focus (nav (on_key ch ui)) ≠ Nav.focus (nav ui) →
  Nav.detail_scroll (nav (on_key ch ui)) = 0%Z
  ∧ Nav.tree_cursor (nav (on_key ch ui)) = 0%Z
  ∧ Nav.expanded_tool (nav (on_key ch ui)) = (-1)%Z
  ∧ Nav.collapsed_prompts (nav (on_key ch ui)) = Nav.collapsed_prompts (nav ui)
  ∧ Nav.collapsed_agents (nav (on_key ch ui)) = Nav.collapsed_agents (nav ui).
Proof.
  destruct ch; unfold on_key, Nav.on_space_or_enter; cbn [nav];
    destruct (Nav.focus (nav ui)) eqn:Hf; simpl;
    repeat case_match; simpl; rewrite ?Hf; try done.
Qed.
End KeyFacts.

(** ** The Gantt Compressor: columns are valid, ordered and snap forward *)

Section ColumnsMore.
Context `{PyRuntime}.
Import Gantt.












End ColumnsMore.

(** ** The Gantt Compressor: where segments come from *)

Section SegmentsMore.
Context `{PyRuntime}.
Import Gantt.

Lemma idle_loop now_utc sorted_prompts segs total :
  segments_loop [] [] now_utc sorted_prompts segs total = (segs, total).
Proof.
  revert segs total. induction sorted_prompts as [|p rest IH]; intros segs total;
    simpl; [done|].
  destruct (parse_dt (p_created_at p)) as [seg_start|]; [|by apply IH].
  rewrite Z.eqb_refl. apply IH.
Qed.

(** X15.  Without tool events and without agents there is no segment,
    whatever the prompts are and whenever the session is looked at: a
    session that only has prompts has an empty Gantt chart and a total of
    zero. *)
Theorem X15_prompts_alone_give_no_segment prompts now_utc :
  _build_gantt_segments prompts [] [] now_utc = ([], 0%Z).
Proof. unfold _build_gantt_segments. apply idle_loop. Qed.

Lemma segments_loop_starts tools agents now_utc sorted_prompts segs total :
  let out := (segments_loop tools agents now_utc sorted_prompts segs total).1 in
  length out ≤ length segs + length sorted_prompts
  ∧ ∀ seg, seg ∈ out →
           seg ∈ segs
           ∨ ∃ p, p ∈ sorted_prompts ∧ parse_dt (p_created_at p) = Some (seg_start seg).
Proof.
  revert segs total.
  induction sorted_prompts as [|p rest IH]; intros segs total; simpl.
  - split; [lia|]. by left.
  - destruct (parse_dt (p_created_at p)) as [start|] eqn:Hp.
    + case_match.
      * destruct (IH segs total) as [Hlen Hin]. split; [simpl in *; lia|].
        intros seg Hseg. destruct (Hin seg Hseg) as [?|(q & Hq & ?)]; [by left|].
        right. exists q. split; [by apply list_elem_of_further|done].
      * match goal with
        | |- context [segments_loop _ _ _ rest ?s ?t] =>
            destruct (IH s t) as [Hlen Hin]
        end.
        split; [rewrite length_app in Hlen; simpl in *; lia|].
        intros seg Hseg. destruct (Hin seg Hseg) as [Hold|(q & Hq & ?)].
        -- apply elem_of_app in Hold as [?|Hnew]; [by left|].
           apply list_elem_of_singleton in Hnew as ->. right.
           exists p. split; [apply list_elem_of_here|done].
        -- right. exists q. split; [by apply list_elem_of_further|done].
    + destruct (IH segs total) as [Hlen Hin]. split; [simpl in *; lia|].
      intros seg Hseg. destruct (Hin seg Hseg) as [?|(q & Hq & ?)]; [by left|].
      right. exists q. split; [by apply list_elem_of_further|done].
Qed.

(** X16.  Every segment starts at the parsed [created_at] of a prompt of
    the input, and there are at most as many segments as prompts. *)
Theorem X16_segments_start_at_prompts prompts tools agents now_utc :
  length (_build_gantt_segments prompts tools agents now_utc).1 ≤ length prompts
  ∧ ∀ seg, seg ∈ (_build_gantt_segments prompts tools agents now_utc).1 →
           ∃ p, p ∈ prompts ∧ parse_dt (p_created_at p) = Some (seg_start seg).
Proof.
  unfold _build_gantt_segments.
  destruct (segments_loop_starts tools agents now_utc
              (sorted_by p_created_at prompts) [] 0%Z) as [Hlen Hin].
  split.
  - rewrite (Permutation_length (sorted_by_perm p_created_at prompts)) in Hlen.
    simpl in Hlen. exact Hlen.
  - intros seg Hseg. destruct (Hin seg Hseg) as [Hnil|(p & Hp & Hstart)].
    + by apply elem_of_nil in Hnil.
    + exists p. split; [|done]. by rewrite sorted_by_perm in Hp.
Qed.
End SegmentsMore.

(** ** The bar of an agent track *)

Section TrackBar.
Context `{PyRuntime}.
Import Gantt Track.




End TrackBar.

(** ** The Game of Life *)

Section LifeFacts.
Import Life.

Lemma wrap_lt i d n : 0 < n → wrap i d n < n.
Proof.
  intros Hn. unfold wrap.
  pose proof (Z.mod_pos_bound (Z.of_nat i + d) (Z.of_nat n)). lia.
Qed.

Lemma step_cell_some row_m row_0 row_p cols c :
  length row_m = cols → length row_0 = cols → length row_p = cols → c < cols →
  is_Some (step_cell row_m row_0 row_p cols c).
Proof.
  intros Hm H0 Hp Hc. unfold step_cell.
  assert (Hcm : wrap c (-1) cols < cols) by (apply wrap_lt; lia).
  assert (Hcp : wrap c 1 cols < cols) by (apply wrap_lt; lia).
  destruct (lookup_lt_is_Some_2 row_m (wrap c (-1) cols)) as [a1 ->]; [lia|].
  destruct (lookup_lt_is_Some_2 row_m c) as [a2 ->]; [lia|].
  destruct (lookup_lt_is_Some_2 row_m (wrap c 1 cols)) as [a3 ->]; [lia|].
  destruct (lookup_lt_is_Some_2 row_0 (wrap c (-1) cols)) as [b1 ->]; [lia|].
  destruct (lookup_lt_is_Some_2 row_0 (wrap c 1 cols)) as [b3 ->]; [lia|].
  destruct (lookup_lt_is_Some_2 row_p (wrap c (-1) cols)) as [c1 ->]; [lia|].
  destruct (lookup_lt_is_Some_2 row_p c) as [c2 ->]; [lia|].
  destruct (lookup_lt_is_Some_2 row_p (wrap c 1 cols)) as [c3 ->]; [lia|].
  simpl. repeat case_match; try done. apply lookup_lt_is_Some_2. lia.
Qed.

Lemma step_row_some grid rows cols r :
  well_shaped grid rows cols → r < rows →
  ∃ row, step_row grid rows cols r = Some row ∧ length row = cols.
Proof.
  intros [Hlen Hall] Hr. unfold step_row. rewrite Forall_forall in Hall.
  destruct (lookup_lt_is_Some_2 grid (wrap r (-1) rows)) as [row_m Hm];
    [pose proof (wrap_lt r (-1) rows); lia|].
  destruct (lookup_lt_is_Some_2 grid r) as [row_0 H0]; [lia|].
  destruct (lookup_lt_is_Some_2 grid (wrap r 1 rows)) as [row_p Hp];
    [pose proof (wrap_lt r 1 rows); lia|].
  rewrite Hm, H0, Hp. simpl.
  assert (Hsome : is_Some (mapM (step_cell row_m row_0 row_p cols) (seq 0 cols))).
  { apply mapM_is_Some, Forall_forall. intros c Hc. apply elem_of_seq in Hc.
    unfold compose.
    apply step_cell_some; try lia; apply Hall; by eapply list_elem_of_lookup_2. }
  destruct Hsome as [row Hrow]. exists row. split; [done|].
  apply length_mapM in Hrow. by rewrite length_seq in Hrow.
Qed.

(** X18.  On a grid of [rows] rows of [cols] cells a generation never
    fails with an index error, and its result is again a grid of [rows]
    rows of [cols] cells, so generations can follow one another. *)
Theorem X18_life_step_keeps_the_shape grid rows cols :
  well_shaped grid rows cols →
  ∃ new, life_step grid rows cols = Some new ∧ well_shaped new rows cols.
Proof.
  intros Hwf. unfold life_step.
  assert (Hsome : is_Some (mapM (step_row grid rows cols) (seq 0 rows))).
  { apply mapM_is_Some, Forall_forall. intros r Hr. apply elem_of_seq in Hr.
    destruct (step_row_some grid rows cols r Hwf) as (row & Hrow & _); [lia|].
    unfold compose. by rewrite Hrow. }
  destruct Hsome as [new Hnew]. exists new. split; [done|]. split.
  - apply length_mapM in Hnew. by rewrite length_seq in Hnew.
  - apply mapM_Some in Hnew. apply Forall_forall. intros row Hrow.
    apply list_elem_of_lookup in Hrow as [i Hi].
    destruct (Forall2_lookup_r _ _ _ _ _ Hnew Hi) as (r & Hr & Hstep).
    apply lookup_seq in Hr as [-> Hr].
    destruct (step_row_some grid rows cols i Hwf) as (row' & Hrow' & Hlen); [lia|].
    simpl in Hstep. congruence.
Qed.

Lemma mapM_seq_const {A} (f : nat → option A) (x : A) n :
  (∀ i, i < n → f i = Some x) → mapM f (seq 0 n) = Some (replicate n x).
Proof.
  intros Hf. apply mapM_Some. apply Forall2_same_length_lookup. split.
  - by rewrite length_seq, length_replicate.
  - intros i j y Hj Hy. apply lookup_seq in Hj as [-> Hi].
    apply lookup_replicate in Hy as [-> _]. simpl. by apply Hf.
Qed.

(** X19.  A grid without live cells stays without live cells. *)
Theorem X19_dead_grid_stays_dead rows cols :
  life_step (dead_grid rows cols) rows cols = Some (dead_grid rows cols).
Proof.
  unfold life_step, dead_grid. apply mapM_seq_const. intros r Hr.
  unfold step_row.
  rewrite !lookup_replicate_2 by (try apply wrap_lt; lia). simpl.
  apply mapM_seq_const. intros c Hc. unfold step_cell.
  rewrite !lookup_replicate_2 by (try apply wrap_lt; lia). done.
Qed.
End LifeFacts.

Section LifeRender.
Import Life.

Lemma dot_cell_at grid rows cols gr gc :
  well_shaped grid rows cols →
  dot grid rows cols gr gc = Some (cell_at grid gr gc).
Proof.
  intros [Hlen Hall]. unfold dot, cell_at. rewrite Forall_forall in Hall.
  destruct (gr <? rows) eqn:Hr; simpl.
  - apply Nat.ltb_lt in Hr.
    destruct (lookup_lt_is_Some_2 grid gr) as [row Hrow]; [lia|].
    rewrite Hrow. simpl.
    assert (Hcols : length row = cols) by (apply Hall; by eapply list_elem_of_lookup_2).
    destruct (gc <? cols) eqn:Hc.
    + apply Nat.ltb_lt in Hc.
      destruct (lookup_lt_is_Some_2 row gc) as [b Hb]; [lia|]. by rewrite Hb.
    + apply Nat.ltb_ge in Hc. by rewrite (lookup_ge_None_2 row gc) by lia.
  - apply Nat.ltb_ge in Hr. by rewrite (lookup_ge_None_2 grid gr) by lia.
Qed.

(** The character of one place: its code point is a braille pattern, a
    dot is set exactly where the cell is alive, and the density is the
    number of dots. *)
Lemma render_cell_dots grid rows cols cy cx :
  well_shaped grid rows cols →
  ∃ code alive,
    render_cell grid rows cols cy cx = Some (code, alive)
    ∧ (10240 ≤ code < 10496)%Z
    ∧ (∀ dy dx, dy < 4 → dx < 2 →
         Z.testbit code (dot_bit dy dx) = cell_at grid (cy * 4 + dy) (cx * 2 + dx))
    ∧ alive = dots_set code
    ∧ alive ≤ 8.
Proof.
  intros Hwf. unfold render_cell.
  change (dy ← seq 0 4; dx ← seq 0 2; [(dy, dx)])
    with [(0,0);(0,1);(1,0);(1,1);(2,0);(2,1);(3,0);(3,1)].
  cbn [foldl]. unfold render_dot. cbn [fst snd].
  rewrite !(dot_cell_at _ _ _ _ _ Hwf).
  remember (cell_at grid (cy * 4 + 0) (cx * 2 + 0)) as b00 eqn:E00.
  remember (cell_at grid (cy * 4 + 0) (cx * 2 + 1)) as b01 eqn:E01.
  remember (cell_at grid (cy * 4 + 1) (cx * 2 + 0)) as b10 eqn:E10.
  remember (cell_at grid (cy * 4 + 1) (cx * 2 + 1)) as b11 eqn:E11.
  remember (cell_at grid (cy * 4 + 2) (cx * 2 + 0)) as b20 eqn:E20.
  remember (cell_at grid (cy * 4 + 2) (cx * 2 + 1)) as b21 eqn:E21.
  remember (cell_at grid (cy * 4 + 3) (cx * 2 + 0)) as b30 eqn:E30.
  remember (cell_at grid (cy * 4 + 3) (cx * 2 + 1)) as b31 eqn:E31.
  destruct b00, b01, b10, b11, b20, b21, b30, b31;
    (eexists _, _; split; [reflexivity|];
     split; [split; by vm_compute|];
     split; [|split; [vm_compute; reflexivity|vm_compute; lia]];
     intros [|[|[|[|dy]]]] [|[|dx]] Hdy Hdx; try lia;
     first [rewrite <- E00 | rewrite <- E01 | rewrite <- E10 | rewrite <- E11
           | rewrite <- E20 | rewrite <- E21 | rewrite <- E30 | rewrite <- E31];
     reflexivity).
Qed.

(** X20.  The braille picture of a well-shaped grid: [life_render] never
    fails, it gives [char_h] lines of [char_w] characters, and the
    character at [(cy, cx)] is a braille pattern (U+2800 to U+28FF) whose
    dot at row [dy] and column [dx] is set exactly when the cell
    [(4 cy + dy, 2 cx + dx)] is alive, a place beyond the grid counting
    as dead; the density beside it is the number of its dots. *)
Theorem X20_braille_dots_are_the_live_cells grid rows cols char_w char_h :
  well_shaped grid rows cols →
  ∃ lines,
    life_render grid rows cols char_w char_h = Some lines
    ∧ length lines = char_h
    ∧ Forall (λ line, length line = char_w) lines
    ∧ ∀ cy cx, cy < char_h → cx < char_w →
        ∃ code alive,
          lines !! cy ≫= (.!! cx) = Some (code, alive)
          ∧ (10240 ≤ code < 10496)%Z
          ∧ (∀ dy dx, dy < 4 → dx < 2 →
               Z.testbit code (dot_bit dy dx)
               = cell_at grid (cy * 4 + dy) (cx * 2 + dx))
          ∧ alive = dots_set code.
Proof.
  intros Hwf. unfold life_render.
  assert (Hline : ∀ cy, ∃ line,
            mapM (render_cell grid rows cols cy) (seq 0 char_w) = Some line
            ∧ length line = char_w
            ∧ ∀ cx, cx < char_w →
                line !! cx = Some (default (0%Z, 0) (render_cell grid rows cols cy cx))).
  { intros cy.
    assert (Hsome : is_Some (mapM (render_cell grid rows cols cy) (seq 0 char_w))).
    { apply mapM_is_Some, Forall_forall. intros cx _. unfold compose.
      destruct (render_cell_dots grid rows cols cy cx Hwf) as (c & a & -> & _). done. }
    destruct Hsome as [line Hl]. exists line. split; [done|].
    pose proof (length_mapM _ _ _ Hl) as Hlen. rewrite length_seq in Hlen.
    split; [done|]. intros cx Hcx. apply mapM_Some in Hl.
    destruct (lookup_lt_is_Some_2 line cx) as [x Hx]; [lia|].
    destruct (Forall2_lookup_r _ _ _ _ _ Hl Hx) as (i & Hi & Hr).
    apply lookup_seq in Hi as [-> _]. simpl in Hr. by rewrite Hx, Hr. }
  assert (Hsome : is_Some (mapM (λ cy, mapM (render_cell grid rows cols cy) (seq 0 char_w))
                                (seq 0 char_h))).
  { apply mapM_is_Some, Forall_forall. intros cy _. unfold compose.
    destruct (Hline cy) as (line & -> & _). done. }
  destruct Hsome as [lines Hlines]. exists lines. split; [done|].
  pose proof (length_mapM _ _ _ Hlines) as Hlen. rewrite length_seq in Hlen.
  apply mapM_Some in Hlines.
  assert (Hrow : ∀ cy line, lines !! cy = Some line →
            mapM (render_cell grid rows cols cy) (seq 0 char_w) = Some line).
  { intros cy line Hl.
    destruct (Forall2_lookup_r _ _ _ _ _ Hlines Hl) as (i & Hi & Hr).
    apply lookup_seq in Hi as [-> _]. done. }
  split; [done|]. split.
  - apply Forall_forall. intros line Hin.
    apply list_elem_of_lookup in Hin as [cy Hcy].
    destruct (Hline cy) as (line' & Hl' & Hlen' & _).
    rewrite (Hrow _ _ Hcy) in Hl'. congruence.
  - intros cy cx Hcy Hcx.
    destruct (lookup_lt_is_Some_2 lines cy) as [line Hl]; [lia|].
    destruct (Hline cy) as (line' & Hl' & _ & Hcell).
    rewrite (Hrow _ _ Hl) in Hl'. injection Hl' as <-.
    destruct (render_cell_dots grid rows cols cy cx Hwf)
      as (code & alive & Hc & Hrange & Hbits & Halive & _).
    exists code, alive. rewrite Hl. simpl. rewrite (Hcell cx Hcx), Hc. done.
Qed.
End LifeRender.

(** ** Short identifiers and wrapped prompts *)

Section TextFacts.
Context {A : Type}.
Import Text.

Lemma upto_take (l : list A) (n : Z) :
  (0 ≤ n)%Z → PySeq.upto l n = take (Z.to_nat n) l.
Proof.
  intros Hn. unfold PySeq.upto, PySeq.slice, PySeq.norm_index. simpl.
  destruct (n <? 0)%Z eqn:Hneg; [lia|].
  replace (Z.to_nat (0 `min` Z.of_nat (length l))) with 0 by lia.
  rewrite drop_0.
  destruct (decide (n ≤ Z.of_nat (length l))%Z).
  - f_equal. lia.
  - rewrite !take_ge by lia. done.
Qed.

Lemma from_drop (l : list A) (n : Z) :
  (0 ≤ n)%Z → PySeq.from l n = drop (Z.to_nat n) l.
Proof.
  intros Hn. unfold PySeq.from, PySeq.slice, PySeq.norm_index.
  destruct (n <? 0)%Z eqn:Hneg; [lia|].
  destruct (Z.of_nat (length l) <? 0)%Z eqn:Hneg'; [apply Z.ltb_lt in Hneg'; lia|].
  rewrite Z.min_id.
  destruct (decide (n ≤ Z.of_nat (length l))%Z).
  - replace (Z.to_nat (n `min` Z.of_nat (length l))) with (Z.to_nat n) by lia.
    apply take_ge. rewrite length_drop. lia.
  - replace (Z.to_nat (n `min` Z.of_nat (length l))) with (length l) by lia.
    rewrite !drop_ge by lia. by rewrite take_nil.
Qed.

Lemma take_plus (l : list A) (n m : nat) :
  take (n + m) l = take n l ++ take m (drop n l).
Proof.
  revert l. induction n as [|n IH]; intros [|x l]; simpl; try done.
  - by rewrite take_nil.
  - by rewrite IH.
Qed.

(** X21.  A short identifier is the beginning of the identifier and has
    at most eight characters; it is the identifier itself exactly when
    that has at most eight characters, and shortening twice changes
    nothing more.  The same holds for the short form of a session. *)
Theorem X21_short_ids_are_short_prefixes (s : list A) :
  (short_id s `prefix_of` s ∧ length (short_id s) ≤ 8
   ∧ (short_id s = s ↔ length s ≤ 8)
   ∧ short_id (short_id s) = short_id s)
  ∧ (short_session s `prefix_of` s ∧ length (short_session s) ≤ 8
     ∧ (short_session s = s ↔ length s ≤ 8)
     ∧ short_session (short_session s) = short_session s).
Proof.
  unfold short_id, short_session.
  destruct (8 <? length s) eqn:Hlen.
  - apply Nat.ltb_lt in Hlen. rewrite !upto_take by lia.
    assert (H7 : length (take (Z.to_nat 7) s) = 7) by (rewrite length_take; lia).
    assert (H6 : length (take (Z.to_nat 6) s) = 6) by (rewrite length_take; lia).
    rewrite H7, H6. simpl (_ <? _).
    split; (split; [apply prefix_take|]; split; [lia|]; split; [|done]);
      (split; [intros Heq; rewrite <- Heq in Hlen; lia | lia]).
  - rewrite Hlen. apply Nat.ltb_ge in Hlen. repeat split; done.
Qed.

Lemma wrap_loop_lines (rounds : nat) (text : list A) (text_w : Z)
    (lines : list (list A)) :
  (0 < text_w)%Z → length lines + rounds ≤ 4 →
  ∃ new,
    wrap_loop rounds text text_w lines = lines ++ new
    ∧ length new ≤ rounds
    ∧ Forall (λ line, 0 < length line ≤ Z.to_nat text_w) new
    ∧ concat new = take (rounds * Z.to_nat text_w) text.
Proof.
  intros Hw. revert text lines.
  induction rounds as [|rounds IH]; intros text lines Hlen.
  - exists []. simpl. rewrite app_nil_r, take_0. by split_and!.
  - destruct text as [|c text].
    { exists []. simpl. rewrite app_nil_r, take_nil.
      split_and!; [done|lia|done|done]. }
    cbn [wrap_loop].
    destruct (length lines <? 4) eqn:Hfour; [|apply Nat.ltb_ge in Hfour; lia].
    rewrite upto_take, from_drop by lia.
    destruct (IH (drop (Z.to_nat text_w) (c :: text))
                 (lines ++ [take (Z.to_nat text_w) (c :: text)]))
      as (new & Heq & Hn & Hall & Hcat).
    { rewrite length_app. simpl. lia. }
    exists (take (Z.to_nat text_w) (c :: text) :: new).
    split; [by rewrite Heq, <- app_assoc|].
    split; [simpl; lia|]. split.
    + constructor; [|done]. rewrite length_take. simpl. lia.
    + cbn [concat]. rewrite Hcat.
      replace (S rounds * Z.to_nat text_w)
        with (Z.to_nat text_w + rounds * Z.to_nat text_w) by lia.
      by rewrite take_plus.
Qed.

(** X22.  A prompt wrapped to a positive width gives at most four
    lines, none of them empty and none longer than the width, and the
    lines put end to end are the first [4 * text_w] characters of the
    prompt: nothing is reordered or repeated, and what does not fit in
    four lines is left out. *)
Theorem X22_wrapped_prompt_lines (text : list A) (text_w : Z) :
  (0 < text_w)%Z →
  let lines := wrap_prompt text text_w in
  length lines ≤ 4
  ∧ Forall (λ line, 0 < length line ≤ Z.to_nat text_w) lines
  ∧ concat lines = take (4 * Z.to_nat text_w) text.
Proof.
  intros Hw. cbv zeta. unfold wrap_prompt.
  destruct (wrap_loop_lines 4 text text_w [] Hw) as (new & -> & Hn & Hall & Hcat);
    [simpl; lia|].
  simpl. by split_and!.
Qed.
End TextFacts.

(** ** The further properties on sample data *)

Section FurtherExamples.
Import Correlator Gantt.

(** X3 on a session with one running agent and a [Read] in its
    directory. *)
Lemma explorer_owns_its_read :
  Cases.read20 ∈ tool_events [Cases.read20]
  ∧ cwd_matches_of (agents_of "s1" [Cases.explorer]) Cases.read20 = [Cases.explorer]
  ∧ ∃ res l,
      _match_tools_to_agents (H := Concrete.runtime) [Cases.read20] [Cases.explorer] "s1"
      = Some res
      ∧ agent_tools res !! agent_id Cases.explorer = Some l ∧ Cases.read20 ∈ l.
Proof.
  assert (Hin : Cases.read20 ∈ tool_events [Cases.read20]).
  { apply list_elem_of_filter. split; [reflexivity|apply list_elem_of_here]. }
  assert (Hm : cwd_matches_of (agents_of "s1" [Cases.explorer]) Cases.read20
               = [Cases.explorer]) by (vm_compute; reflexivity).
  split; [exact Hin|]. split; [exact Hm|].
  apply (X3_unique_cwd_match_owns (H := Concrete.runtime)
           [Cases.read20] [Cases.explorer] "s1" Cases.read20 Cases.explorer Hin);
    [discriminate|exact Hm].
Defined.

(** X4 on the same session: the owner of the [Read] is the agent. *)
Lemma read_owner_is_the_explorer :
  let res := mkResult {["a1" := [Cases.read20]]} ∅ [] in
  _match_tools_to_agents (H := Concrete.runtime) [Cases.read20] [Cases.explorer] "s1"
  = Some res
  ∧ agent_tools res !! "a1" = Some [Cases.read20]
  ∧ ∃ a, a ∈ agents_of "s1" [Cases.explorer] ∧ agent_id a = "a1"
         ∧ in_window Cases.read20 a = true
         ∧ (cwd_matches_of (agents_of "s1" [Cases.explorer]) Cases.read20 = [a]
            ∨ ∀ a', a' ∈ agents_of "s1" [Cases.explorer] →
                    in_window Cases.read20 a' = true →
                    started_at a' ≤ₛ started_at a).
Proof.
  cbv zeta.
  assert (Hrun : _match_tools_to_agents (H := Concrete.runtime)
                   [Cases.read20] [Cases.explorer] "s1"
                 = Some (mkResult {["a1" := [Cases.read20]]} ∅ []))
    by (vm_compute; reflexivity).
  assert (Hl : agent_tools (mkResult {["a1" := [Cases.read20]]} ∅ []) !! "a1"
               = Some [Cases.read20]) by (vm_compute; reflexivity).
  split; [exact Hrun|]. split; [exact Hl|].
  apply (X4_owner_is_cwd_match_or_latest (H := Concrete.runtime)
           [Cases.read20] [Cases.explorer] "s1" _ "a1" [Cases.read20] Cases.read20
           Hrun Hl).
  apply list_elem_of_here.
Defined.

(** X5 on a [Task] call two seconds before the agent started. *)
Lemma task_before_the_explorer_is_nearest :
  best_task_for (H := Concrete.runtime) [Cases.task8] Cases.explorer ∅
  = Some (0, Cases.task8)
  ∧ ∃ delta,
      acceptable (H := Concrete.runtime) [Cases.task8] Cases.explorer ∅ 0 Cases.task8 delta
      ∧ ∀ j tj delta',
          eligible (H := Concrete.runtime) [Cases.task8] Cases.explorer ∅ j tj delta' →
          (delta ≤ delta')%Z.
Proof.
  assert (Hbest : best_task_for (H := Concrete.runtime) [Cases.task8] Cases.explorer ∅
                  = Some (0, Cases.task8)) by (vm_compute; reflexivity).
  split; [exact Hbest|].
  exact (X5_claimed_task_is_nearest (H := Concrete.runtime) _ _ _ _ _ Hbest).
Defined.

(** X6 on the same call: two seconds are less than six. *)
Lemma task_two_seconds_before_is_claimed :
  eligible (H := Concrete.runtime) [Cases.task8] Cases.explorer ∅ 0 Cases.task8 2000000
  ∧ (2000000 < 6000000)%Z
  ∧ is_Some (best_task_for (H := Concrete.runtime) [Cases.task8] Cases.explorer ∅).
Proof.
  assert (Hel : eligible (H := Concrete.runtime)
                  [Cases.task8] Cases.explorer ∅ 0 Cases.task8 2000000).
  { unfold eligible. split_and!; try reflexivity; try discriminate. }
  split; [exact Hel|]. split; [reflexivity|].
  apply (X6_near_task_is_claimed (H := Concrete.runtime) _ _ _ _ _ _ Hel). reflexivity.
Defined.


(** A prompt of eighty characters wrapped to twenty takes four rows of
    a panel three rows high with no tool expanded: the loop stops after
    it, and the row under the cursor, the third of the timeline, is in
    the slice and is not drawn. *)
Example wrapped_prompt_hides_the_cursor_row :
  let st := Keys.with_cursor 2 (Keys.reset_panel Nav.FRight Sample.panel) in
  (View.settle None Cases.long_timeline 3 st).1.1 = 2%Z
  ∧ (View.settle None Cases.long_timeline 3 st).2 = Cases.long_timeline
  ∧ View.drawn (Cases.screen_rows 20) None Cases.long_timeline 3 st = [0%Z].
Proof. cbv zeta. split_and!; vm_compute; reflexivity. Qed.

(** X9 on six keys pressed on the panel. *)
Lemma six_keys_keep_the_cursor_in_range :
  let keys := [Keys.Down; Keys.Down; Keys.Up; Keys.Space; Keys.Esc; Keys.Down] in
  cursor_in_range Cases.ui ∧ selection_in_range Cases.ui
  ∧ cursor_in_range (Keys.on_keys keys Cases.ui)
  ∧ selection_in_range (Keys.on_keys keys Cases.ui)
  ∧ Nav.tree_timeline (Keys.nav (Keys.on_keys keys Cases.ui))
    = Nav.tree_timeline (Keys.nav Cases.ui).
Proof.
  cbv zeta.
  assert (Hc : cursor_in_range Cases.ui) by (split; vm_compute; discriminate).
  assert (Hs : selection_in_range Cases.ui) by (split; vm_compute; discriminate).
  split; [exact Hc|]. split; [exact Hs|].
  exact (X9_keys_keep_cursor_in_range _ Cases.ui Hc Hs).
Defined.

(** X11 on Esc pressed with the focus on the panel. *)
Lemma esc_leaves_the_panel_reset :
  Nav.focus (Keys.nav (Keys.on_key Keys.Esc Cases.ui)) ≠ Nav.focus (Keys.nav Cases.ui)
  ∧ Nav.detail_scroll (Keys.nav (Keys.on_key Keys.Esc Cases.ui)) = 0%Z
  ∧ Nav.tree_cursor (Keys.nav (Keys.on_key Keys.Esc Cases.ui)) = 0%Z
  ∧ Nav.expanded_tool (Keys.nav (Keys.on_key Keys.Esc Cases.ui)) = (-1)%Z
  ∧ Nav.collapsed_prompts (Keys.nav (Keys.on_key Keys.Esc Cases.ui))
    = Nav.collapsed_prompts (Keys.nav Cases.ui)
  ∧ Nav.collapsed_agents (Keys.nav (Keys.on_key Keys.Esc Cases.ui))
    = Nav.collapsed_agents (Keys.nav Cases.ui).
Proof.
  assert (Hf : Nav.focus (Keys.nav (Keys.on_key Keys.Esc Cases.ui))
               ≠ Nav.focus (Keys.nav Cases.ui)) by (vm_compute; discriminate).
  split; [exact Hf|].
  exact (X11_focus_change_resets_panel Keys.Esc Cases.ui Hf).
Defined.






(** The blinker is a grid of five rows of five cells. *)
Lemma blinker_is_well_shaped : well_shaped Cases.blinker 5 5.
Proof. split; [reflexivity|]. repeat constructor. Defined.

(** X18 on the blinker. *)
Lemma blinker_keeps_its_shape :
  well_shaped Cases.blinker 5 5
  ∧ ∃ new, Life.life_step Cases.blinker 5 5 = Some new ∧ well_shaped new 5 5.
Proof.
  split; [exact blinker_is_well_shaped|].
  exact (X18_life_step_keeps_the_shape Cases.blinker 5 5 blinker_is_well_shaped).
Defined.

(** X20 on the blinker, drawn as two lines of three characters. *)
Lemma blinker_in_braille :
  well_shaped Cases.blinker 5 5
  ∧ ∃ lines,
      Life.life_render Cases.blinker 5 5 3 2 = Some lines
      ∧ length lines = 2
      ∧ Forall (λ line, length line = 3) lines
      ∧ ∀ cy cx, cy < 2 → cx < 3 →
          ∃ code alive,
            lines !! cy ≫= (.!! cx) = Some (code, alive)
            ∧ (10240 ≤ code < 10496)%Z
            ∧ (∀ dy dx, dy < 4 → dx < 2 →
                 Z.testbit code (Life.dot_bit dy dx)
                 = cell_at Cases.blinker (cy * 4 + dy) (cx * 2 + dx))
            ∧ alive = dots_set code.
Proof.
  split; [exact blinker_is_well_shaped|].
  exact (X20_braille_dots_are_the_live_cells Cases.blinker 5 5 3 2 blinker_is_well_shaped).
Defined.

(** X22 on eleven characters and a width of three. *)
Lemma eleven_characters_in_lines_of_three :
  let lines := Text.wrap_prompt (seq 1 11) 3 in
  (0 < 3)%Z
  ∧ length lines ≤ 4
  ∧ Forall (λ line, 0 < length line ≤ Z.to_nat 3) lines
  ∧ concat lines = take (4 * Z.to_nat 3) (seq 1 11).
Proof.
  cbv zeta. split; [reflexivity|].
  exact (X22_wrapped_prompt_lines (seq 1 11) 3 eq_refl).
Defined.
End FurtherExamples.
